(** * govaluate: the operator kernels of the evaluation stage tree

    A shallow embedding of [evaluationStage.go] and [sanitizedParameters.go].

    - Go's [float32] and [float64] are IEEE 754 binary32 and binary64; they
      are modelled by the Standard Library's [spec_float] at precision 24
      (resp. 53), which makes every arithmetic kernel executable.
    - A Go [interface{}] is the tagged union [value]; a type assertion
      [x, ok := v.(T)] is the pair returned by [assertT].
    - A kernel returns [(interface{}, error)]; it may also panic (a failed
      single-result type assertion, a nil pointer).  Both are kept apart
      in [outcome].
    - [*evaluationStage] pointers are locations of a [gmap] store.
    - The primitives of Go's [math], [fmt] and [regexp] packages, and the
      float to integer conversions that the language leaves to the
      implementation, are variables of the section [Host].
    - The accessor kernel, which goes through reflection, is not part of
      the embedding. *)

From Stdlib Require Import ZArith Floats.SpecFloat.
From stdpp Require Import base option list strings gmap.

Local Open Scope string_scope.
Local Open Scope list_scope.

(** ** IEEE 754 numbers *)

Definition float32 : Type := spec_float.
Definition float64 : Type := spec_float.

Module F32.
Definition prec : Z := 24.
Definition emax : Z := 128.

(** The zero value of the type. *)
Definition zero : float32 := S754_zero false.

Definition add : float32 -> float32 -> float32 := SFadd prec emax.
Definition sub : float32 -> float32 -> float32 := SFsub prec emax.
Definition mul : float32 -> float32 -> float32 := SFmul prec emax.
Definition div : float32 -> float32 -> float32 := SFdiv prec emax.
Definition neg : float32 -> float32 := SFopp.

(** [x == y], [x < y], [x <= y]: false as soon as one side is a NaN. *)
Definition eqb : float32 -> float32 -> bool := SFeqb.
Definition ltb : float32 -> float32 -> bool := SFltb.
Definition leb : float32 -> float32 -> bool := SFleb.

(** [float32(n)] for an integer [n]: round to nearest, ties to even. *)
Definition of_Z (n : Z) : float32 := binary_normalize prec emax n 0 false.

(** [float32(x)] for a [float64] [x]. *)
Definition of_float64 (x : float64) : float32 :=
  match x with
  | S754_finite s m e => binary_normalize prec emax (cond_Zopp s (Zpos m)) e s
  | _ => x
  end.

(** [math.SmallestNonzeroFloat32 = 0x1p-126 * 0x1p-23], i.e. 2^-149, the
    smallest positive subnormal. *)
Definition SmallestNonzeroFloat32 : float32 := S754_finite false 1 (-149).

(** 2^-126, the smallest positive normal number ([f32::MIN_POSITIVE] in
    the specification's vocabulary). *)
Definition MIN_POSITIVE : float32 := S754_finite false 8388608 (-149).

Definition one : float32 := of_Z 1.
End F32.

Module F64.
Definition prec : Z := 53.
Definition emax : Z := 1024.

(** [float64(x)] for a [float32] [x]; the conversion is exact. *)
Definition of_float32 (x : float32) : float64 :=
  match x with
  | S754_finite s m e => binary_normalize prec emax (cond_Zopp s (Zpos m)) e s
  | _ => x
  end.
End F64.

(** ** Dynamic values *)

(** The integer types of Go.  [castToFloat32] has a case for each of them
    except [uint]. *)
Inductive intKind :=
  | Uint8 | Uint16 | Uint32 | Uint64
  | Int8 | Int16 | Int32 | Int64
  | Int | Uint.

(** A compiled pattern, identified by the expression it was compiled
    from. *)
Record Regexp := { expr : string }.

(** What an [interface{}] can hold, as far as the kernels look at it. *)
#[warnings="-register-all"]
Inductive value :=
  | VNil
  | VFloat32 (x : float32)
  | VFloat32s (xs : list float32)
  | VBool (b : bool)
  | VBools (bs : list bool)
  | VString (s : string)
  | VRegexp (re : option Regexp)   (* [*regexp.Regexp]; [None] is the nil pointer *)
  | VInt (k : intKind) (n : Z)
  | VInts (k : intKind) (ns : list Z)
  | VFloat64 (x : float64)
  | VFloat64s (xs : list float64)
  | VList (vs : list value)        (* [[]interface{}] *)
  | VObj (handle : N).             (* any other host object *)

(** ** Errors and outcomes *)

Inductive error :=
  | DifferentArraySizes (m n : nat)   (* "different array sizes: %v, %v" *)
  | InvalidOperand (op : string)      (* "invalid operand for <op>" *)
  | InvalidNoData (val : value)       (* "invalid nodata value: %v" *)
  | RegexpCompile (pattern : value) (cause : string)
                                      (* "Unable to compile regexp pattern '%v': %v" *)
  | HostError (msg : string).         (* an error of a [Parameters] implementation *)

Inductive outcome :=
  | Return (v : value) (err : option error)
  | Panic.

(** [return v, nil] and [return nil, err]. *)
Abbreviation Ok v := (Return v None).
Abbreviation Fail e := (Return VNil (Some e)).

(** [Parameters] is an interface with the single method [Get]. *)
Definition Parameters : Type := string -> value * option error.

Definition evaluationOperator : Type := value -> value -> Parameters -> outcome.
Definition stageTypeCheck : Type := value -> bool.
Definition stageCombinedTypeCheck : Type := value -> value -> bool.

(** ** Formats of the type errors *)

Definition logicalErrorFormat : string :=
  "Value '%v' cannot be used with the logical operator '%v', it is not a bool".
Definition modifierErrorFormat : string :=
  "Value '%v' cannot be used with the modifier '%v', it is not a number".
Definition comparatorErrorFormat : string :=
  "Value '%v' cannot be used with the comparator '%v', it is not a number".
Definition ternaryErrorFormat : string :=
  "Value '%v' cannot be used with the ternary operator '%v', it is not a bool".
Definition prefixErrorFormat : string :=
  "Value '%v' cannot be used with the prefix '%v'".

(** ** Type assertions [x, ok := v.(T)] *)

Definition assertFloat32s (v : value) : list float32 * bool :=
  match v with VFloat32s xs => (xs, true) | _ => ([], false) end.

Definition assertFloat32 (v : value) : float32 * bool :=
  match v with VFloat32 x => (x, true) | _ => (F32.zero, false) end.

Definition assertBools (v : value) : list bool * bool :=
  match v with VBools bs => (bs, true) | _ => ([], false) end.

Definition assertBool (v : value) : bool * bool :=
  match v with VBool b => (b, true) | _ => (false, false) end.

(** ** Type predicates *)

Definition isString (value : value) : bool :=
  match value with VString _ => true | _ => false end.

Definition isRegexOrString (value : value) : bool :=
  match value with VString _ => true | VRegexp _ => true | _ => false end.

Definition isBool (value : value) : bool :=
  match value with VBools _ => true | VBool _ => true | _ => false end.

Definition isFloat32 (value : value) : bool :=
  match value with VFloat32s _ => true | VFloat32 _ => true | _ => false end.

Definition isArray (value : value) : bool :=
  match value with VList _ => true | _ => false end.

Definition additionTypeCheck (left right : value) : bool :=
  if isFloat32 left && isFloat32 right then true
  else if negb (isString left) && negb (isString right) then false
  else true.

Definition comparatorTypeCheck (left right : value) : bool :=
  if isFloat32 left && isFloat32 right then true
  else if isString left && isString right then true
  else false.

(** ** Slices and loops *)

(** [make([]T, n)]: [n] copies of the zero value of [T]. *)
Definition make {T} (zero : T) (n : nat) : list T := replicate n zero.

(** [xs[i]]; every use below sits in a loop that keeps [i] below the
    length, so that the out-of-range panic of Go cannot happen and the
    default is never returned. *)
Definition elem {T} (zero : T) (xs : list T) (i : nat) : T := nth i xs zero.

(** [for i := range xs { body }], with [n = len(xs)], threading the
    variables the body assigns. *)
Definition forRange {S} (n : nat) (body : nat -> S -> S) (s : S) : S :=
  foldl (fun s i => body i s) s (seq 0 n).

(** ** The NoData sentinel *)

Definition getNoData (parameters : Parameters) : float32 * option error :=
  let noData := F32.SmallestNonzeroFloat32 in
  let '(val, err) := parameters "nodata" in
  match err with
  | None =>
      let '(v, ok) := assertFloat32 val in
      if negb ok then (F32.zero, Some (InvalidNoData val))
      else (v, None)
  | Some _ => (noData, None)
  end.

(** ** Kernels on numbers *)

(** The binary kernels on numbers are one text, repeated with another lane
    operation and another operator name in the last error: the four type
    assertions, then vector/vector (with the length check), vector/scalar,
    scalar/vector, scalar/scalar, and the operand error.  [T] is [float32]
    for the arithmetic and bitwise kernels and [bool] for the comparators. *)
Section Broadcast.
Context {T : Type} (zero : T).
Context (scalar : T -> value) (vector : list T -> value).

Definition numericStage (name : string) (op : float32 -> float32 -> T)
  : evaluationOperator := fun left right parameters =>
  let '(lax, laok) := assertFloat32s left in
  let '(lx, lok) := assertFloat32 left in
  let '(rax, raok) := assertFloat32s right in
  let '(rx, rok) := assertFloat32 right in
  if laok && raok then
    if negb (Nat.eqb (length lax) (length rax)) then
      Fail (DifferentArraySizes (length lax) (length rax))
    else
      let res := make zero (length lax) in
      Ok (vector (forRange (length lax) (fun i res =>
            <[i := op (elem F32.zero lax i) (elem F32.zero rax i)]> res) res))
  else if laok && rok then
    let res := make zero (length lax) in
    Ok (vector (forRange (length lax) (fun i res =>
          <[i := op (elem F32.zero lax i) rx]> res) res))
  else if lok && raok then
    let res := make zero (length rax) in
    Ok (vector (forRange (length rax) (fun i res =>
          <[i := op lx (elem F32.zero rax i)]> res) res))
  else if lok && rok then
    Ok (scalar (op lx rx))
  else
    Fail (InvalidOperand name).
End Broadcast.

(** The same text over [bool] and [[]bool], for [&&] and [||]. *)
Definition logicalStage (name : string) (op : bool -> bool -> bool)
  : evaluationOperator := fun left right parameters =>
  let '(lax, laok) := assertBools left in
  let '(lx, lok) := assertBool left in
  let '(rax, raok) := assertBools right in
  let '(rx, rok) := assertBool right in
  if laok && raok then
    if negb (Nat.eqb (length lax) (length rax)) then
      Fail (DifferentArraySizes (length lax) (length rax))
    else
      let res := make false (length lax) in
      Ok (VBools (forRange (length lax) (fun i res =>
            <[i := op (elem false lax i) (elem false rax i)]> res) res))
  else if laok && rok then
    let res := make false (length lax) in
    Ok (VBools (forRange (length lax) (fun i res =>
          <[i := op (elem false lax i) rx]> res) res))
  else if lok && raok then
    let res := make false (length rax) in
    Ok (VBools (forRange (length rax) (fun i res =>
          <[i := op lx (elem false rax i)]> res) res))
  else if lok && rok then
    Ok (VBool (op lx rx))
  else
    Fail (InvalidOperand name).

Definition arithmeticStage := numericStage F32.zero VFloat32 VFloat32s.
Definition comparisonStage := numericStage false VBool VBools.

Definition noopStageRight : evaluationOperator :=
  fun left right parameters => Ok right.

Definition makeParameterStage (parameterName : string) : evaluationOperator :=
  fun left right parameters =>
    let '(value, err) := parameters parameterName in
    match err with
    | Some err => Fail err
    | None => Ok value
    end.

Definition makeLiteralStage (literal : value) : evaluationOperator :=
  fun left right parameters => Ok literal.

Definition subtractStage : evaluationOperator := arithmeticStage "subtraction" F32.sub.
Definition multiplyStage : evaluationOperator := arithmeticStage "multiplication" F32.mul.
Definition divideStage : evaluationOperator := arithmeticStage "division" F32.div.

Definition equalStage : evaluationOperator := comparisonStage "==" F32.eqb.
Definition notEqualStage : evaluationOperator :=
  comparisonStage "!=" (fun x y => negb (F32.eqb x y)).

Definition andStage : evaluationOperator := logicalStage "&&" andb.
Definition orStage : evaluationOperator := logicalStage "||" orb.

(** Converting a boolean to an [interface{}] goes through two interned
    values. *)
Definition _true : value := VBool true.
Definition _false : value := VBool false.

Definition boolIface (b : bool) : value := if b then _true else _false.

(** The comparators first try the lexicographic comparison of two
    strings. *)
Definition stringComparator (cmp : string -> string -> bool) (left right : value)
  : outcome :=
  match left, right with
  | VString l, VString r => Ok (boolIface (cmp l r))
  | _, _ => Panic
  end.

Definition gteStage : evaluationOperator := fun left right parameters =>
  if isString left && isString right then
    stringComparator (fun l r => String.leb r l) left right
  else comparisonStage ">=" (fun x y => F32.leb y x) left right parameters.

Definition gtStage : evaluationOperator := fun left right parameters =>
  if isString left && isString right then
    stringComparator (fun l r => String.ltb r l) left right
  else comparisonStage ">" (fun x y => F32.ltb y x) left right parameters.

Definition lteStage : evaluationOperator := fun left right parameters =>
  if isString left && isString right then
    stringComparator String.leb left right
  else comparisonStage "<=" F32.leb left right parameters.

Definition ltStage : evaluationOperator := fun left right parameters =>
  if isString left && isString right then
    stringComparator String.ltb left right
  else comparisonStage "<" F32.ltb left right parameters.

(** ** Prefix kernels *)

Definition negateStage : evaluationOperator := fun left right parameters =>
  let '(rax, raok) := assertFloat32s right in
  let '(rx, rok) := assertFloat32 right in
  if raok then
    let res := make F32.zero (length rax) in
    Ok (VFloat32s (forRange (length rax) (fun i res =>
          <[i := F32.neg (elem F32.zero rax i)]> res) res))
  else if rok then Ok (VFloat32 (F32.neg rx))
  else Fail (InvalidOperand "-").

Definition invertStage : evaluationOperator := fun left right parameters =>
  let '(rax, raok) := assertBools right in
  let '(rx, rok) := assertBool right in
  if raok then
    let res := make false (length rax) in
    Ok (VBools (forRange (length rax) (fun i res =>
          <[i := negb (elem false rax i)]> res) res))
  else if rok then Ok (VBool (negb rx))
  else Fail (InvalidOperand "!").

(** ** The ternary kernels *)

Definition ternaryIfStage : evaluationOperator := fun left right parameters =>
  let '(noData, err) := getNoData parameters in
  match err with
  | Some err => Fail err
  | None =>
    let '(lax, laok) := assertBools left in
    let '(lx, lok) := assertBool left in
    let '(rax, raok) := assertFloat32s right in
    let '(rx, rok) := assertFloat32 right in
    if laok && raok then
      if negb (Nat.eqb (length lax) (length rax)) then
        Fail (DifferentArraySizes (length lax) (length rax))
      else
        let res := make F32.zero (length lax) in
        Ok (VFloat32s (forRange (length lax) (fun i res =>
              if elem false lax i then <[i := elem F32.zero rax i]> res
              else <[i := noData]> res) res))
    else if laok && rok then
      let res := make F32.zero (length lax) in
      Ok (VFloat32s (forRange (length lax) (fun i res =>
            if elem false lax i then <[i := rx]> res
            else <[i := noData]> res) res))
    else if lok && raok then
      let res := make F32.zero (length rax) in
      Ok (VFloat32s (forRange (length rax) (fun i res =>
            if lx then <[i := elem F32.zero rax i]> res
            else <[i := noData]> res) res))
    else if lok && rok then
      if lx then Ok (VFloat32 rx) else Ok (VFloat32 noData)
    else
      Fail (InvalidOperand "ternary if")
  end.

Definition ternaryElseStage : evaluationOperator := fun left right parameters =>
  let '(noData, err) := getNoData parameters in
  match err with
  | Some err => Fail err
  | None =>
    let '(lax, laok) := assertFloat32s left in
    let '(lx, lok) := assertFloat32 left in
    let '(rax, raok) := assertFloat32s right in
    let '(rx, rok) := assertFloat32 right in
    if laok && raok then
      if negb (Nat.eqb (length lax) (length rax)) then
        Fail (DifferentArraySizes (length lax) (length rax))
      else
        let res := make F32.zero (length lax) in
        Ok (VFloat32s (forRange (length lax) (fun i res =>
              if F32.eqb (elem F32.zero lax i) noData
              then <[i := elem F32.zero rax i]> res
              else <[i := elem F32.zero lax i]> res) res))
    else if laok && rok then
      let res := make F32.zero (length lax) in
      Ok (VFloat32s (forRange (length lax) (fun i res =>
            if F32.eqb (elem F32.zero lax i) noData
            then <[i := rx]> res
            else <[i := elem F32.zero lax i]> res) res))
    else if (lok || F32.eqb lx noData) && raok then
      let res := make F32.zero (length rax) in
      Ok (VFloat32s (forRange (length rax) (fun i res =>
            if F32.eqb lx noData then <[i := elem F32.zero rax i]> res
            else <[i := lx]> res) res))
    else if (lok || F32.eqb lx noData) && rok then
      if F32.eqb lx noData then Ok (VFloat32 rx) else Ok (VFloat32 lx)
    else
      Fail (InvalidOperand "ternary else")
  end.

(** ** Lists *)

Definition separatorStage : evaluationOperator := fun left right parameters =>
  match left with
  | VList vs => Ok (VList (vs ++ [right]))
  | _ => Ok (VList [left; right])
  end.

(** ** Canonicalization of parameters *)

(** [res := make([]float32, len(t)); for i, v := range t { res[i] = float32(v) }] *)
Definition castSlice {T} (zero : T) (conv : T -> float32) (t : list T) : list float32 :=
  let res := make F32.zero (length t) in
  forRange (length t) (fun i res => <[i := conv (elem zero t i)]> res) res.

Definition castToFloat32 (value : value) :=
  match value with
  | VInt Uint8 n => VFloat32 (F32.of_Z n)
  | VInt Uint16 n => VFloat32 (F32.of_Z n)
  | VInt Uint32 n => VFloat32 (F32.of_Z n)
  | VInt Uint64 n => VFloat32 (F32.of_Z n)
  | VInt Int8 n => VFloat32 (F32.of_Z n)
  | VInt Int16 n => VFloat32 (F32.of_Z n)
  | VInt Int32 n => VFloat32 (F32.of_Z n)
  | VInt Int64 n => VFloat32 (F32.of_Z n)
  | VInt Int n => VFloat32 (F32.of_Z n)
  | VFloat64 x => VFloat32 (F32.of_float64 x)
  | VInts Uint8 t => VFloat32s (castSlice 0%Z F32.of_Z t)
  | VInts Uint16 t => VFloat32s (castSlice 0%Z F32.of_Z t)
  | VInts Uint32 t => VFloat32s (castSlice 0%Z F32.of_Z t)
  | VInts Uint64 t => VFloat32s (castSlice 0%Z F32.of_Z t)
  | VInts Int8 t => VFloat32s (castSlice 0%Z F32.of_Z t)
  | VInts Int16 t => VFloat32s (castSlice 0%Z F32.of_Z t)
  | VInts Int32 t => VFloat32s (castSlice 0%Z F32.of_Z t)
  | VInts Int64 t => VFloat32s (castSlice 0%Z F32.of_Z t)
  | VInts Int t => VFloat32s (castSlice 0%Z F32.of_Z t)
  | VFloat64s t => VFloat32s (castSlice F32.zero F32.of_float64 t)
  | _ => value
  end.

(** [sanitizedParameters] wraps a [Parameters]; its [Get] sanitizes what the
    wrapped [Get] returns. *)
Record sanitizedParameters := { orig : Parameters }.

Definition sanitizedParameters_Get (p : sanitizedParameters) : Parameters :=
  fun key =>
    let '(value, err) := orig p key in
    match err with
    | Some err => (VNil, Some err)
    | None => (castToFloat32 value, None)
    end.

(** ** Kernels that call into the host *)

(** The integer part of a number, rounding toward zero; [None] for NaN and
    the infinities. *)
Definition truncate (x : spec_float) : option Z :=
  match x with
  | S754_zero _ => Some 0%Z
  | S754_finite s m e =>
      Some (cond_Zopp s (if (0 <=? e)%Z then Z.shiftl (Zpos m) e
                         else Z.shiftr (Zpos m) (- e)))
  | _ => None
  end.

Section Host.
(** [math.Pow] and [math.Mod]. *)
Variable math_Pow : float64 -> float64 -> float64.
Variable math_Mod : float64 -> float64 -> float64.

(** A conversion [int64(x)] or [uint64(x)] of a number whose integer part
    does not fit the target type succeeds, with a result that Go leaves to
    the implementation. *)
Variable int64_unrepresentable : float32 -> Z.
Variable uint64_unrepresentable : float32 -> Z.

(** The [%v] rendering of an operand that is not a string. *)
Variable fmt_v : value -> string.

(** [regexp.Compile] returns a pattern or the text of an error;
    the [Match] method runs a pattern over the bytes of a string. *)
Variable regexp_Compile : string -> Regexp + string.
Variable regexp_Match : Regexp -> string -> bool.

Definition int64 (x : float32) : Z :=
  match truncate x with
  | Some n =>
      if ((- 2 ^ 63 <=? n) && (n <? 2 ^ 63))%Z then n
      else int64_unrepresentable x
  | None => int64_unrepresentable x
  end.

Definition uint64 (x : float32) : Z :=
  match truncate x with
  | Some n =>
      if ((0 <=? n) && (n <? 2 ^ 64))%Z then n
      else uint64_unrepresentable x
  | None => uint64_unrepresentable x
  end.

(** [a << b] and [a >> b] on [uint64]: a count of 64 or more shifts every
    bit out. *)
Definition shl64 (a b : Z) : Z :=
  if (64 <=? b)%Z then 0%Z else (Z.shiftl a b mod 2 ^ 64)%Z.
Definition shr64 (a b : Z) : Z :=
  if (64 <=? b)%Z then 0%Z else Z.shiftr a b.

(** The [%v] rendering of any operand: a string is printed as it is. *)
Definition render (v : value) : string :=
  match v with VString s => s | _ => fmt_v v end.

(** [fmt.Sprintf("%v%v", a, b)]. *)
Definition Sprintf_vv (a b : value) : string := render a +:+ render b.

(** [addStage], written out: the string concatenation, then the text of
    every numeric kernel. *)
Definition addStage : evaluationOperator := fun left right parameters =>
  if isString left || isString right then
    Ok (VString (Sprintf_vv left right))
  else
    let '(lax, laok) := assertFloat32s left in
    let '(lx, lok) := assertFloat32 left in
    let '(rax, raok) := assertFloat32s right in
    let '(rx, rok) := assertFloat32 right in
    if laok && raok then
      if negb (Nat.eqb (length lax) (length rax)) then
        Fail (DifferentArraySizes (length lax) (length rax))
      else
        let res := make F32.zero (length lax) in
        Ok (VFloat32s (forRange (length lax) (fun i res =>
              <[i := F32.add (elem F32.zero lax i) (elem F32.zero rax i)]> res)
              res))
    else if laok && rok then
      let res := make F32.zero (length lax) in
      Ok (VFloat32s (forRange (length lax) (fun i res =>
            <[i := F32.add (elem F32.zero lax i) rx]> res) res))
    else if lok && raok then
      let res := make F32.zero (length rax) in
      Ok (VFloat32s (forRange (length rax) (fun i res =>
            <[i := F32.add lx (elem F32.zero rax i)]> res) res))
    else if lok && rok then
      Ok (VFloat32 (F32.add lx rx))
    else
      Fail (InvalidOperand "addition").

Definition exponentStage : evaluationOperator :=
  arithmeticStage "exponential" (fun x y =>
    F32.of_float64 (math_Pow (F64.of_float32 x) (F64.of_float32 y))).

Definition modulusStage : evaluationOperator :=
  arithmeticStage "modulus" (fun x y =>
    F32.of_float64 (math_Mod (F64.of_float32 x) (F64.of_float32 y))).

Definition bitwiseNotStage : evaluationOperator := fun left right parameters =>
  let '(rax, raok) := assertFloat32s right in
  let '(rx, rok) := assertFloat32 right in
  if raok then
    let res := make F32.zero (length rax) in
    Ok (VFloat32s (forRange (length rax) (fun i res =>
          <[i := F32.of_Z (Z.lnot (int64 (elem F32.zero rax i)))]> res) res))
  else if rok then Ok (VFloat32 (F32.of_Z (Z.lnot (int64 rx))))
  else Fail (InvalidOperand "^").

Definition bitwiseOrStage : evaluationOperator :=
  arithmeticStage "|" (fun x y => F32.of_Z (Z.lor (int64 x) (int64 y))).
Definition bitwiseAndStage : evaluationOperator :=
  arithmeticStage "&" (fun x y => F32.of_Z (Z.land (int64 x) (int64 y))).
Definition bitwiseXORStage : evaluationOperator :=
  arithmeticStage "^" (fun x y => F32.of_Z (Z.lxor (int64 x) (int64 y))).
Definition leftShiftStage : evaluationOperator :=
  arithmeticStage "<<" (fun x y => F32.of_Z (shl64 (uint64 x) (uint64 y))).
Definition rightShiftStage : evaluationOperator :=
  arithmeticStage ">>" (fun x y => F32.of_Z (shr64 (uint64 x) (uint64 y))).

(** In [regexStage] the switch on the type of [right] leaves [pattern]
    nil when [right] is neither a string nor a pattern; [pattern.Match]
    then dereferences nil, and [left.(string)] panics on anything but a
    string. *)
Definition patternMatch (pattern : option Regexp) (left : value) : outcome :=
  match left, pattern with
  | VString s, Some re => Ok (VBool (regexp_Match re s))
  | _, _ => Panic
  end.

Definition regexStage : evaluationOperator := fun left right parameters =>
  match right with
  | VString s =>
      match regexp_Compile s with
      | inr err => Fail (RegexpCompile right err)
      | inl pattern => patternMatch (Some pattern) left
      end
  | VRegexp pattern => patternMatch pattern left
  | _ => patternMatch None left
  end.

Definition notRegexStage : evaluationOperator := fun left right parameters =>
  match regexStage left right parameters with
  | Panic => Panic
  | Return _ (Some err) => Fail err
  | Return ret None =>
      match ret with
      | VBool b => Ok (VBool (negb b))
      | _ => Panic
      end
  end.

(** The kernels with the broadcasting matrix over numbers, and over
    booleans. *)
Definition numericKernels : list evaluationOperator :=
  [ addStage; subtractStage; multiplyStage; divideStage; exponentStage;
    modulusStage; gteStage; gtStage; lteStage; ltStage; equalStage;
    notEqualStage; bitwiseOrStage; bitwiseAndStage; bitwiseXORStage;
    leftShiftStage; rightShiftStage ].

Definition logicalKernels : list evaluationOperator := [ andStage; orStage ].
End Host.

(** ** Stages *)

(** Modelled from the spec: the type [OperatorSymbol] is declared outside
    the two files embedded here; these are the members that section 6 of
    the specification lists. *)
Inductive OperatorSymbol :=
  | EQ | NEQ | GT | LT | GTE | LTE | REQ | NREQ | AND | OR | IN | COALESCE
  | PLUS | MINUS | MULTIPLY | DIVIDE | MODULUS | EXPONENT
  | BITWISE_AND | BITWISE_OR | BITWISE_XOR | BITWISE_LSHIFT | BITWISE_RSHIFT
  | NEGATE | INVERT | BITWISE_NOT | TERNARY_TRUE | TERNARY_FALSE
  | SEPARATE | FUNCTION | ACCESSOR | LITERAL | PARAMETER | NOOP_RIGHT.

(** A [*evaluationStage] is [None] (nil) or the location of a stage in the
    store. *)
Definition loc : Type := positive.

(** A field of function type holds [None] when it is nil. *)
Record evaluationStage := {
  symbol : OperatorSymbol;
  leftStage : option loc;
  rightStage : option loc;
  operator : option evaluationOperator;
  leftTypeCheck : option stageTypeCheck;
  rightTypeCheck : option stageTypeCheck;
  typeCheck : option stageCombinedTypeCheck;
  typeErrorFormat : string
}.

Abbreviation store := (gmap loc evaluationStage).

(** The assignments of [setToNonStage], on the struct that [this] points
    to. *)
Definition assignNonStage (this other : evaluationStage) : evaluationStage :=
  {| symbol := symbol other;
     leftStage := leftStage this;
     rightStage := rightStage this;
     operator := operator other;
     leftTypeCheck := leftTypeCheck other;
     rightTypeCheck := rightTypeCheck other;
     typeCheck := typeCheck other;
     typeErrorFormat := typeErrorFormat other |}.

(** [this.setToNonStage(other)]: [other] is passed by value; [None] when
    [this] does not point to a stage (a nil dereference). *)
Definition setToNonStage (this : loc) (other : evaluationStage) (h : store)
  : option store :=
  s ← h !! this;
  Some (<[this := assignNonStage s other]> h).

(** [this.swapWith(other)]; the two pointers may be the same. *)
Definition swapWith (this other : loc) (h : store) : option store :=
  temp ← h !! other;
  self ← h !! this;
  h' ← setToNonStage other self h;
  setToNonStage this temp h'.

Definition isShortCircuitable (this : evaluationStage) : bool :=
  match symbol this with
  | AND | OR | TERNARY_TRUE | TERNARY_FALSE | COALESCE => true
  | _ => false
  end.

(** ** Function calls and membership *)

(** Modelled from the spec: the type [ExpressionFunction] is declared outside
    the two files embedded here; a registered function receives a variadic
    list of values and returns a value and an error. *)
Definition ExpressionFunction : Type := list value -> outcome.

(** [right == nil] holds for the nil interface only; a list is spread over
    the arguments, anything else is the single argument. *)
Definition makeFunctionStage (function : ExpressionFunction) : evaluationOperator :=
  fun left right parameters =>
    match right with
    | VNil => function []
    | VList args => function args
    | _ => function [right]
    end.

Definition intKind_eqb (j k : intKind) : bool :=
  match j, k with
  | Uint8, Uint8 | Uint16, Uint16 | Uint32, Uint32 | Uint64, Uint64
  | Int8, Int8 | Int16, Int16 | Int32, Int32 | Int64, Int64
  | Int, Int | Uint, Uint => true
  | _, _ => false
  end.

Section InterfaceEquality.
(** The comparison of two patterns that are not nil (an identity of
    pointers), and of two host objects (which depends on their types). *)
Variable host_equal : value -> value -> option bool.

(** [a == b] on two [interface{}]: false when the dynamic types differ, the
    comparison of the values when they are the same comparable type, and a
    panic ([None]) when they are the same type and that type is a slice. *)
Definition interfaceEqual (a b : value) : option bool :=
  match a, b with
  | VNil, VNil => Some true
  | VFloat32 x, VFloat32 y => Some (F32.eqb x y)
  | VBool x, VBool y => Some (Bool.eqb x y)
  | VString x, VString y => Some (String.eqb x y)
  | VInt j m, VInt k n => Some (intKind_eqb j k && (m =? n)%Z)
  | VFloat64 x, VFloat64 y => Some (SFeqb x y)
  | VRegexp None, VRegexp None => Some true
  | VRegexp (Some _), VRegexp (Some _) => host_equal a b
  | VRegexp _, VRegexp _ => Some false
  | VObj _, VObj _ => host_equal a b
  | VFloat32s _, VFloat32s _ => None
  | VBools _, VBools _ => None
  | VFloat64s _, VFloat64s _ => None
  | VList _, VList _ => None
  | VInts j _, VInts k _ => if intKind_eqb j k then None else Some false
  | _, _ => Some false
  end.

(** [for _, value := range values { if left == value { return true, nil } }] *)
Fixpoint inLoop (left : value) (values : list value) : outcome :=
  match values with
  | [] => Ok (VBool false)
  | value :: values =>
      match interfaceEqual left value with
      | None => Panic
      | Some true => Ok (VBool true)
      | Some false => inLoop left values
      end
  end.

(** [right.([]interface{})] panics on anything but a list. *)
Definition inStage : evaluationOperator := fun left right parameters =>
  match right with
  | VList values => inLoop left values
  | _ => Panic
  end.
End InterfaceEquality.

(** ** Vocabulary of the properties *)

(** The length of a vector value; scalars have none. *)
Definition vectorLength (v : value) : option nat :=
  match v with
  | VFloat32s xs => Some (length xs)
  | VBools bs => Some (length bs)
  | _ => None
  end.

(** Lane [i] of a vector value, as a scalar value. *)
Definition lane (v : value) (i : nat) : option value :=
  match v with
  | VFloat32s xs => VFloat32 <$> xs !! i
  | VBools bs => VBool <$> bs !! i
  | _ => None
  end.

(** Lane [i] of a condition and of a number, a scalar being broadcast to
    every lane. *)
Definition boolLane (v : value) (i : nat) : option bool :=
  match v with
  | VBool b => Some b
  | VBools bs => bs !! i
  | _ => None
  end.

Definition numberLane (v : value) (i : nat) : option float32 :=
  match v with
  | VFloat32 x => Some x
  | VFloat32s xs => xs !! i
  | _ => None
  end.

(** [v] is a scalar or a vector of length [n]. *)
Definition fits (n : nat) (v : value) : bool :=
  match vectorLength v with
  | Some m => Nat.eqb m n
  | None => true
  end.

(** What one lane of [ternaryIfStage] and of [ternaryElseStage] computes. *)
Definition pick (noData : float32) (c : bool) (x : float32) : float32 :=
  if c then x else noData.

Definition fill (noData : float32) (x y : float32) : float32 :=
  if F32.eqb x noData then y else x.

(** The length of the first vector among three operands. *)
Definition commonLength (c a b : value) : option nat :=
  match vectorLength c, vectorLength a, vectorLength b with
  | Some n, _, _ | None, Some n, _ | None, None, Some n => Some n
  | None, None, None => None
  end.

(** [cond ? a : b] at the level of the kernels: the value that
    [ternaryIfStage] returns is the left operand of [ternaryElseStage]; an
    error or a panic of the first kernel ends the evaluation. *)
Definition ternaryIfElse (c a b : value) (parameters : Parameters) : outcome :=
  match ternaryIfStage c a parameters with
  | Return v None => ternaryElseStage v b parameters
  | stopped => stopped
  end.

(** The ternary identity at one input: the composition returns a value
    whose lanes are those of [a] where [c] holds and those of [b]
    elsewhere. *)
Definition TernaryIdentity (parameters : Parameters) (c a b : value) : Prop :=
  exists r, ternaryIfElse c a b parameters = Ok r /\
    forall i cb av bv,
      boolLane c i = Some cb -> numberLane a i = Some av ->
      numberLane b i = Some bv ->
      numberLane r i = Some (if cb : bool then av else bv).

(** A [Parameters] backed by a finite map; a name that is not bound is an
    error. *)
Definition mapParameters (m : gmap string value) : Parameters := fun name =>
  match m !! name with
  | Some v => (v, None)
  | None => (VNil, Some (HostError ("No parameter '" +:+ name +:+ "' found.")))
  end.

(** The default of the sentinel is [d]: whenever [Get("nodata")] fails,
    [getNoData] returns [d]. *)
Definition NoDataDefault (d : float32) : Prop :=
  forall (parameters : Parameters) v e,
    parameters "nodata" = (v, Some e) -> getNoData parameters = (d, None).

(** The integer kinds that [castToFloat32] has a case for. *)
Definition supported (k : intKind) : bool :=
  match k with Uint => false | _ => true end.

(** The two groups of fields of a stage: what [setToNonStage] assigns, and
    the child pointers. *)
Definition sameNonChildFields (s t : evaluationStage) : Prop :=
  symbol s = symbol t /\ operator s = operator t /\
  leftTypeCheck s = leftTypeCheck t /\ rightTypeCheck s = rightTypeCheck t /\
  typeCheck s = typeCheck t /\ typeErrorFormat s = typeErrorFormat t.

Definition sameChildren (s t : evaluationStage) : Prop :=
  leftStage s = leftStage t /\ rightStage s = rightStage t.

(** ** A host and parameters for the examples *)

(** Placeholders for the host primitives that the examples never reach, and
    a pattern language made of literal texts: an expression compiles to
    itself and matches the strings that contain it. *)
Module Stub.
Definition math_Pow : float64 -> float64 -> float64 := fun _ _ => S754_nan.
Definition math_Mod : float64 -> float64 -> float64 := fun _ _ => S754_nan.
Definition int64_unrepresentable : float32 -> Z := fun _ => (- 2 ^ 63)%Z.
Definition uint64_unrepresentable : float32 -> Z := fun _ => (2 ^ 63)%Z.
Definition fmt_v : value -> string := fun _ => "?".
Definition regexp_Compile : string -> Regexp + string :=
  fun s => inl {| expr := s |}.
Definition regexp_Match : Regexp -> string -> bool :=
  fun re s => bool_decide (is_Some (String.index 0 (expr re) s)).
End Stub.

(** No parameter at all, [nodata] bound to a number, and [nodata] bound to
    a string. *)
Definition noParameters : Parameters := mapParameters ∅.

Definition withNoData (v : value) : Parameters :=
  mapParameters {[ "nodata" := v ]}.

Abbreviation stubKernels :=
  (numericKernels Stub.math_Pow Stub.math_Mod Stub.int64_unrepresentable
     Stub.uint64_unrepresentable Stub.fmt_v).

(** Two stages, as the planner builds them for [+] and [&&]. *)
Definition plusStage : evaluationStage :=
  {| symbol := PLUS; leftStage := Some 3%positive; rightStage := Some 4%positive;
     operator := Some (addStage Stub.fmt_v);
     leftTypeCheck := None; rightTypeCheck := None;
     typeCheck := Some additionTypeCheck;
     typeErrorFormat := modifierErrorFormat |}.

Definition andStageNode : evaluationStage :=
  {| symbol := AND; leftStage := Some 5%positive; rightStage := None;
     operator := Some andStage;
     leftTypeCheck := Some isBool; rightTypeCheck := Some isBool;
     typeCheck := None;
     typeErrorFormat := logicalErrorFormat |}.

(** The numbers [n], for an integer [n], as a vector. *)
Definition numbers (ns : list Z) : list float32 := F32.of_Z <$> ns.

(** ** Vocabulary of the further properties *)

(** Two operands that are not vectors of different lengths. *)
Definition compatible (l r : value) : bool :=
  match vectorLength l, vectorLength r with
  | Some m, Some n => Nat.eqb m n
  | _, _ => true
  end.

(** The length of the left operand if it is a vector, else of the right
    one. *)
Definition joinLength (l r : value) : option nat :=
  match vectorLength l with
  | Some m => Some m
  | None => vectorLength r
  end.

(** The numeric kernels with the operator name of their operand error. *)
Section KernelTable.
Variable math_Pow : float64 -> float64 -> float64.
Variable math_Mod : float64 -> float64 -> float64.
Variable int64_unrepresentable : float32 -> Z.
Variable uint64_unrepresentable : float32 -> Z.
Variable fmt_v : value -> string.

Definition arithmeticKernelNames : list (evaluationOperator * string) :=
  [ (subtractStage, "subtraction"); (multiplyStage, "multiplication");
    (divideStage, "division");
    (exponentStage math_Pow, "exponential"); (modulusStage math_Mod, "modulus");
    (equalStage, "=="); (notEqualStage, "!=");
    (bitwiseOrStage int64_unrepresentable, "|");
    (bitwiseAndStage int64_unrepresentable, "&");
    (bitwiseXORStage int64_unrepresentable, "^");
    (leftShiftStage uint64_unrepresentable, "<<");
    (rightShiftStage uint64_unrepresentable, ">>") ].

Definition comparatorKernelNames : list (evaluationOperator * string) :=
  [ (gteStage, ">="); (gtStage, ">"); (lteStage, "<="); (ltStage, "<") ].

Definition numericKernelNames : list (evaluationOperator * string) :=
  (addStage fmt_v, "addition") :: arithmeticKernelNames ++ comparatorKernelNames.

(** The kernels in which no statement can panic. *)
Definition checkedKernels : list evaluationOperator :=
  numericKernels math_Pow math_Mod int64_unrepresentable
    uint64_unrepresentable fmt_v
  ++ logicalKernels
  ++ [ negateStage; invertStage; bitwiseNotStage int64_unrepresentable;
       ternaryIfStage; ternaryElseStage; separatorStage; noopStageRight ].
End KernelTable.

Definition logicalKernelNames : list (evaluationOperator * string) :=
  [ (andStage, "&&"); (orStage, "||") ].

(** [separatorStage] over the values of an argument list, from the left:
    what the stage tree of [v1, v2, ..., vn] computes. *)
Definition separate (first : value) (rest : list value) : outcome :=
  foldl (fun acc v =>
           match acc with
           | Return l None => separatorStage l v noParameters
           | stopped => stopped
           end) (Ok first) rest.

(** Pointers compared by the expression of the pattern and by the handle of
    the object, for the examples. *)
Definition sameHandle (a b : value) : option bool :=
  match a, b with
  | VRegexp (Some p), VRegexp (Some q) => Some (String.eqb (expr p) (expr q))
  | VObj g, VObj h => Some (g =? h)%N
  | _, _ => Some false
  end.

(** The values of a comparable type that is not a pointer: nil, numbers,
    booleans, strings. *)
Definition comparableScalar (v : value) : bool :=
  match v with
  | VNil | VFloat32 _ | VBool _ | VString _ | VInt _ _ | VFloat64 _ => true
  | _ => false
  end.

(** The representation of the integer [c] or [-c], for [c] below 2^24: a
    mantissa of 24 digits. *)
Definition canon (s : bool) (c : positive) : float32 :=
  S754_finite s (Z.to_pos (Zpos c * 2 ^ (24 - Zpos (digits2_pos c))))
    (Zpos (digits2_pos c) - 24)%Z.

(** * Properties *)

(** ** Loops that fill a fresh slice *)

Lemma forRange_prefix {T} (g : nat -> T) (k : nat) (res : list T) :
  k <= length res ->
  forRange k (fun i r => <[i := g i]> r) res = (g <$> seq 0 k) ++ drop k res.
Proof.
  unfold forRange. induction k as [|k IH]; intros Hk.
  - by rewrite drop_0.
  - rewrite seq_S, foldl_app, fmap_app. cbn [foldl fmap list_fmap].
    rewrite IH by lia. simpl.
    assert (Hlen : length (g <$> seq 0 k) = k) by (by rewrite length_fmap, length_seq).
    rewrite insert_app_r_alt by lia. rewrite Hlen, Nat.sub_diag.
    destruct (drop k res) as [|x rest] eqn:Hd.
    + apply (f_equal length) in Hd. rewrite length_drop in Hd. simpl in Hd. lia.
    + replace (drop (S k) res) with rest.
      * simpl. by rewrite <- app_assoc.
      * replace (S k) with (k + 1) by lia.
        by rewrite <- drop_drop, Hd.
Qed.

(** A loop whose body stores [g i] at index [i] of a slice of length [n]
    leaves [g 0; ...; g (n-1)]. *)
Lemma forRange_assign {T} (body : nat -> list T -> list T) (g : nat -> T) n res :
  (forall i r, body i r = <[i := g i]> r) ->
  length res = n ->
  forRange n body res = g <$> seq 0 n.
Proof.
  intros Hbody Hlen.
  assert (Hext : forRange n body res = forRange n (fun i r => <[i := g i]> r) res).
  { unfold forRange. generalize (seq 0 n) res. intros l.
    induction l as [|i l IH]; intros r; simpl; [done|]. by rewrite Hbody, IH. }
  rewrite Hext, forRange_prefix by lia.
  rewrite <- Hlen, drop_all. by rewrite app_nil_r.
Qed.

Lemma length_make {T} (zero : T) n : length (make zero n) = n.
Proof. apply length_replicate. Qed.

Lemma elem_lookup {T} (zero : T) xs i x : xs !! i = Some x -> elem zero xs i = x.
Proof. intros H. unfold elem. by apply nth_lookup_Some. Qed.

Lemma lookup_tabulate {T} (g : nat -> T) n i :
  i < n -> (g <$> seq 0 n) !! i = Some (g i).
Proof.
  intros Hi. rewrite list_lookup_fmap, lookup_seq_lt by done. done.
Qed.

Lemma elem_tabulate {T} (zero : T) (g : nat -> T) n i :
  i < n -> elem zero (g <$> seq 0 n) i = g i.
Proof. intros Hi. by apply elem_lookup, lookup_tabulate. Qed.

Lemma length_tabulate {T} (g : nat -> T) n : length (g <$> seq 0 n) = n.
Proof. by rewrite length_fmap, length_seq. Qed.

(** Reading a slice back through its indices is the slice itself. *)
Lemma tabulate_elem {T U} (zero : T) (f : T -> U) (xs : list T) :
  (fun i => f (elem zero xs i)) <$> seq 0 (length xs) = f <$> xs.
Proof.
  apply list_eq. intros i. destruct (decide (i < length xs)) as [Hi|Hi].
  - rewrite lookup_tabulate by done.
    destruct (lookup_lt_is_Some_2 xs i Hi) as [x Hx].
    rewrite (elem_lookup _ _ _ _ Hx). by rewrite list_lookup_fmap, Hx.
  - rewrite !lookup_ge_None_2; [done | rewrite length_fmap; lia |].
    rewrite length_tabulate. lia.
Qed.

Lemma tabulate_elem2 {T U V} (z1 : T) (z2 : U) (f : T -> U -> V) xs ys :
  length xs = length ys ->
  (fun i => f (elem z1 xs i) (elem z2 ys i)) <$> seq 0 (length xs)
  = zip_with f xs ys.
Proof.
  intros Hlen. apply list_eq. intros i.
  destruct (decide (i < length xs)) as [Hi|Hi].
  - rewrite lookup_tabulate by done.
    destruct (lookup_lt_is_Some_2 xs i Hi) as [x Hx].
    destruct (lookup_lt_is_Some_2 ys i) as [y Hy]; [lia|].
    rewrite (elem_lookup _ _ _ _ Hx), (elem_lookup _ _ _ _ Hy).
    symmetry. apply lookup_zip_with_Some. eauto.
  - rewrite !lookup_ge_None_2; [done | | rewrite length_tabulate; lia].
    rewrite length_zip_with. lia.
Qed.

(** ** The broadcasting matrix *)

Section BroadcastFacts.
Context {T : Type} (zero : T).
Context (scalar : T -> value) (vector : list T -> value).
Context (name : string) (op : float32 -> float32 -> T) (P : Parameters).

Local Abbreviation kernel := (numericStage zero scalar vector name op).

Lemma numericStage_vector_vector lax rax :
  length lax = length rax ->
  kernel (VFloat32s lax) (VFloat32s rax) P = Ok (vector (zip_with op lax rax)).
Proof.
  intros Hlen. unfold numericStage. simpl.
  rewrite Hlen, Nat.eqb_refl. simpl. rewrite <- Hlen.
  erewrite forRange_assign; [ | intros; reflexivity | apply length_make ].
  by rewrite tabulate_elem2.
Qed.

Lemma numericStage_mismatch lax rax :
  length lax <> length rax ->
  kernel (VFloat32s lax) (VFloat32s rax) P
  = Fail (DifferentArraySizes (length lax) (length rax)).
Proof.
  intros Hlen. unfold numericStage. simpl.
  by apply Nat.eqb_neq in Hlen as ->.
Qed.

Lemma numericStage_vector_scalar lax rx :
  kernel (VFloat32s lax) (VFloat32 rx) P
  = Ok (vector ((fun x => op x rx) <$> lax)).
Proof.
  unfold numericStage. simpl.
  erewrite forRange_assign; [ | intros; reflexivity | apply length_make ].
  by rewrite (tabulate_elem F32.zero (fun x => op x rx)).
Qed.

Lemma numericStage_scalar_vector lx rax :
  kernel (VFloat32 lx) (VFloat32s rax) P = Ok (vector (op lx <$> rax)).
Proof.
  unfold numericStage. simpl.
  erewrite forRange_assign; [ | intros; reflexivity | apply length_make ].
  by rewrite (tabulate_elem F32.zero (op lx)).
Qed.

Lemma numericStage_scalar_scalar lx rx :
  kernel (VFloat32 lx) (VFloat32 rx) P = Ok (scalar (op lx rx)).
Proof. reflexivity. Qed.

(** As soon as one operand is neither a number nor a vector of numbers,
    no row of the matrix applies. *)
Lemma numericStage_operand_error left right :
  isFloat32 left = false \/ isFloat32 right = false ->
  kernel left right P = Fail (InvalidOperand name).
Proof.
  unfold numericStage. intros [H|H].
  - destruct left; try discriminate H; simpl;
      by destruct (assertFloat32s right) as [? []], (assertFloat32 right) as [? []].
  - destruct right; try discriminate H; simpl;
      destruct (assertFloat32s left) as [? []], (assertFloat32 left) as [? []];
      reflexivity.
Qed.
End BroadcastFacts.

Section LogicalFacts.
Context (name : string) (op : bool -> bool -> bool) (P : Parameters).

Lemma logicalStage_vector_vector lax rax :
  length lax = length rax ->
  logicalStage name op (VBools lax) (VBools rax) P
  = Ok (VBools (zip_with op lax rax)).
Proof.
  intros Hlen. unfold logicalStage. simpl.
  rewrite Hlen, Nat.eqb_refl. simpl. rewrite <- Hlen.
  erewrite forRange_assign; [ | intros; reflexivity | apply length_make ].
  by rewrite tabulate_elem2.
Qed.

Lemma logicalStage_mismatch lax rax :
  length lax <> length rax ->
  logicalStage name op (VBools lax) (VBools rax) P
  = Fail (DifferentArraySizes (length lax) (length rax)).
Proof.
  intros Hlen. unfold logicalStage. simpl.
  by apply Nat.eqb_neq in Hlen as ->.
Qed.

Lemma logicalStage_vector_scalar lax rx :
  logicalStage name op (VBools lax) (VBool rx) P
  = Ok (VBools ((fun x => op x rx) <$> lax)).
Proof.
  unfold logicalStage. simpl.
  erewrite forRange_assign; [ | intros; reflexivity | apply length_make ].
  by rewrite (tabulate_elem false (fun x => op x rx)).
Qed.

Lemma logicalStage_scalar_vector lx rax :
  logicalStage name op (VBool lx) (VBools rax) P = Ok (VBools (op lx <$> rax)).
Proof.
  unfold logicalStage. simpl.
  erewrite forRange_assign; [ | intros; reflexivity | apply length_make ].
  by rewrite (tabulate_elem false (op lx)).
Qed.
End LogicalFacts.

(** Broadcasting, lane by lane, for the two instances of the matrix. *)
Section BroadcastLanes.
Context {T : Type} (zero : T).
Context (scalar : T -> value) (vector : list T -> value).
Context (name : string) (op : float32 -> float32 -> T) (P : Parameters).
Hypothesis vector_length : forall l, vectorLength (vector l) = Some (length l).
Hypothesis vector_lane : forall l i, lane (vector l) i = scalar <$> l !! i.

Local Abbreviation kernel := (numericStage zero scalar vector name op).

Lemma numericStage_broadcast_right v s :
  exists r, kernel (VFloat32s v) (VFloat32 s) P = Ok r /\
    vectorLength r = Some (length v) /\
    forall i x, v !! i = Some x ->
      exists y, lane r i = Some y /\ kernel (VFloat32 x) (VFloat32 s) P = Ok y.
Proof.
  eexists. split; [apply numericStage_vector_scalar|]. split.
  - by rewrite vector_length, length_fmap.
  - intros i x Hx. exists (scalar (op x s)). split; [|done].
    by rewrite vector_lane, list_lookup_fmap, Hx.
Qed.

Lemma numericStage_broadcast_left v s :
  exists r, kernel (VFloat32 s) (VFloat32s v) P = Ok r /\
    vectorLength r = Some (length v) /\
    forall i x, v !! i = Some x ->
      exists y, lane r i = Some y /\ kernel (VFloat32 s) (VFloat32 x) P = Ok y.
Proof.
  eexists. split; [apply numericStage_scalar_vector|]. split.
  - by rewrite vector_length, length_fmap.
  - intros i x Hx. exists (scalar (op s x)). split; [|done].
    by rewrite vector_lane, list_lookup_fmap, Hx.
Qed.
End BroadcastLanes.

Section KernelProperties.
Variable math_Pow : float64 -> float64 -> float64.
Variable math_Mod : float64 -> float64 -> float64.
Variable int64_unrepresentable : float32 -> Z.
Variable uint64_unrepresentable : float32 -> Z.
Variable fmt_v : value -> string.
Variable regexp_Compile : string -> Regexp + string.
Variable regexp_Match : Regexp -> string -> bool.

Local Abbreviation numeric :=
  (numericKernels math_Pow math_Mod int64_unrepresentable
     uint64_unrepresentable fmt_v).

(** Without a string operand, [addStage] is the text of the other numeric
    kernels. *)
Lemma addStage_numeric left right P :
  isString left = false -> isString right = false ->
  addStage fmt_v left right P
  = arithmeticStage "addition" F32.add left right P.
Proof. intros Hl Hr. unfold addStage. by rewrite Hl, Hr. Qed.

(** Every kernel of [numericKernels] is the matrix over numbers as soon
    as its operands are numbers. *)
Lemma numericKernels_matrix op :
  In op numeric ->
  (exists name f, forall left right P,
      isFloat32 left = true -> isFloat32 right = true ->
      op left right P = arithmeticStage name f left right P)
  \/ (exists name f, forall left right P,
      isFloat32 left = true -> isFloat32 right = true ->
      op left right P = comparisonStage name f left right P).
Proof.
  assert (Hstr : forall v, isFloat32 v = true -> isString v = false)
    by (by intros []).
  intros Hin. simpl in Hin.
  repeat (destruct Hin as [<- | Hin]); try contradiction;
    try (left; do 2 eexists; intros; reflexivity);
    try (right; do 2 eexists; intros; reflexivity).
  - left. do 2 eexists. intros left right P Hl Hr.
    apply addStage_numeric; by apply Hstr.
  - right. do 2 eexists. intros left right P Hl Hr.
    unfold gteStage. by rewrite (Hstr _ Hl).
  - right. do 2 eexists. intros left right P Hl Hr.
    unfold gtStage. by rewrite (Hstr _ Hl).
  - right. do 2 eexists. intros left right P Hl Hr.
    unfold lteStage. by rewrite (Hstr _ Hl).
  - right. do 2 eexists. intros left right P Hl Hr.
    unfold ltStage. by rewrite (Hstr _ Hl).
Qed.

(** C2. Broadcasting law: for every binary numeric kernel [op], every
    vector [v] and every scalar [s], [op(v, s)] and [op(s, v)] return,
    without error, a vector of the length of [v] whose lane [i] is what
    [op] returns on the scalars [v[i]] and [s] (resp. [s] and [v[i]]). *)
Theorem broadcasting_law op v s P :
  In op numeric ->
  (exists r, op (VFloat32s v) (VFloat32 s) P = Ok r /\
     vectorLength r = Some (length v) /\
     forall i x, v !! i = Some x ->
       exists y, lane r i = Some y /\ op (VFloat32 x) (VFloat32 s) P = Ok y)
  /\
  (exists r, op (VFloat32 s) (VFloat32s v) P = Ok r /\
     vectorLength r = Some (length v) /\
     forall i x, v !! i = Some x ->
       exists y, lane r i = Some y /\ op (VFloat32 s) (VFloat32 x) P = Ok y).
Proof.
  intros Hin.
  destruct (numericKernels_matrix op Hin) as [(name & f & Hop)|(name & f & Hop)].
  - split.
    + destruct (numericStage_broadcast_right F32.zero VFloat32 VFloat32s name f P
                  (fun _ => eq_refl) (fun _ _ => eq_refl) v s)
        as (r & Hr & Hlen & Hlanes).
      exists r. rewrite Hop by done. repeat split; [done..|].
      intros i x Hx. destruct (Hlanes i x Hx) as (y & ? & ?).
      exists y. by rewrite Hop.
    + destruct (numericStage_broadcast_left F32.zero VFloat32 VFloat32s name f P
                  (fun _ => eq_refl) (fun _ _ => eq_refl) v s)
        as (r & Hr & Hlen & Hlanes).
      exists r. rewrite Hop by done. repeat split; [done..|].
      intros i x Hx. destruct (Hlanes i x Hx) as (y & ? & ?).
      exists y. by rewrite Hop.
  - split.
    + destruct (numericStage_broadcast_right false VBool VBools name f P
                  (fun _ => eq_refl) (fun _ _ => eq_refl) v s)
        as (r & Hr & Hlen & Hlanes).
      exists r. rewrite Hop by done. repeat split; [done..|].
      intros i x Hx. destruct (Hlanes i x Hx) as (y & ? & ?).
      exists y. by rewrite Hop.
    + destruct (numericStage_broadcast_left false VBool VBools name f P
                  (fun _ => eq_refl) (fun _ _ => eq_refl) v s)
        as (r & Hr & Hlen & Hlanes).
      exists r. rewrite Hop by done. repeat split; [done..|].
      intros i x Hx. destruct (Hlanes i x Hx) as (y & ? & ?).
      exists y. by rewrite Hop.
Qed.

(** C6. As soon as one operand is a string, [addStage] returns, without
    error, the string made of the default rendering of [left] followed by
    that of [right]; the result does not come from the numeric rows, which
    reject such a pair, and the type check of the stage accepts it. *)
Theorem addStage_concatenates left right P :
  isString left = true \/ isString right = true ->
  addStage fmt_v left right P
  = Ok (VString (render fmt_v left +:+ render fmt_v right))
  /\ arithmeticStage "addition" F32.add left right P
     = Fail (InvalidOperand "addition")
  /\ additionTypeCheck left right = true.
Proof.
  intros H. split; [|split].
  - unfold addStage.
    by destruct H as [->| ->]; rewrite ?orb_true_r.
  - apply numericStage_operand_error.
    destruct H as [H|H]; [left; by destruct left|right; by destruct right].
  - unfold additionTypeCheck.
    destruct H as [H|H]; rewrite H; simpl;
      [by destruct left|by destruct right, (isFloat32 left), (isString left)].
Qed.

Lemma addStage_string_left s v P :
  addStage fmt_v (VString s) v P = Ok (VString (s +:+ render fmt_v v)).
Proof. reflexivity. Qed.

Lemma addStage_string_right s v P :
  addStage fmt_v v (VString s) P = Ok (VString (render fmt_v v +:+ s)).
Proof. unfold addStage. simpl. by rewrite orb_true_r. Qed.

Local Abbreviation regex := (regexStage regexp_Compile regexp_Match).
Local Abbreviation notRegex := (notRegexStage regexp_Compile regexp_Match).

(** On a string and a pattern that is not a nil pointer, [regexStage]
    returns a boolean or an error. *)
Lemma regexStage_returns s R P :
  isRegexOrString R = true -> R <> VRegexp None ->
  (exists b, regex (VString s) R P = Ok (VBool b))
  \/ (exists e, regex (VString s) R P = Fail e).
Proof.
  intros HR Hnil. destruct R as [| | | | |p|[re|]| | | | | |];
    try discriminate HR; simpl.
  - destruct (regexp_Compile p); eauto.
  - eauto.
  - by destruct Hnil.
Qed.

(** C7. Regex round trip: on a string [s] and a pattern [R], a string or
    a compiled pattern, when [regexStage] returns the boolean [b],
    [notRegexStage] returns its negation, and when [regexStage] returns
    an error, [notRegexStage] returns that error; unless [R] is a nil
    pattern, [regexStage] does return one or the other. *)
Theorem regex_round_trip s R P :
  isRegexOrString R = true ->
  (forall b, regex (VString s) R P = Ok (VBool b) ->
     notRegex (VString s) R P = Ok (VBool (negb b)))
  /\ (forall e, regex (VString s) R P = Fail e ->
        notRegex (VString s) R P = Fail e)
  /\ (R <> VRegexp None ->
        (exists b, regex (VString s) R P = Ok (VBool b)
                   /\ notRegex (VString s) R P = Ok (VBool (negb b)))
        \/ (exists e, regex (VString s) R P = Fail e
                      /\ notRegex (VString s) R P = Fail e)).
Proof.
  intros HR.
  assert (Hok : forall b, regex (VString s) R P = Ok (VBool b) ->
                          notRegex (VString s) R P = Ok (VBool (negb b)))
    by (intros b H; unfold notRegexStage; by rewrite H).
  assert (Herr : forall e, regex (VString s) R P = Fail e ->
                           notRegex (VString s) R P = Fail e)
    by (intros e H; unfold notRegexStage; by rewrite H).
  repeat split; [done..|]. intros Hnil.
  destruct (regexStage_returns s R P HR Hnil) as [[b H]|[e H]]; eauto.
Qed.
End KernelProperties.

(** ** The ternary kernels, shape by shape *)

Section TernaryFacts.
Context (P : Parameters) (noData : float32).
Hypothesis resolved : getNoData P = (noData, None).

Lemma ternaryIfStage_vector_vector lax rax :
  length lax = length rax ->
  ternaryIfStage (VBools lax) (VFloat32s rax) P
  = Ok (VFloat32s (zip_with (pick noData) lax rax)).
Proof.
  intros Hlen. unfold ternaryIfStage. rewrite resolved. simpl.
  rewrite Hlen, Nat.eqb_refl. simpl. rewrite <- Hlen.
  rewrite (forRange_assign _
    (fun i => pick noData (elem false lax i) (elem F32.zero rax i)));
    [ | intros i r; unfold pick; by destruct (elem false lax i)
      | apply length_make ].
  by rewrite tabulate_elem2.
Qed.

Lemma ternaryIfStage_vector_scalar lax rx :
  ternaryIfStage (VBools lax) (VFloat32 rx) P
  = Ok (VFloat32s ((fun c => pick noData c rx) <$> lax)).
Proof.
  unfold ternaryIfStage. rewrite resolved. simpl.
  rewrite (forRange_assign _ (fun i => pick noData (elem false lax i) rx));
    [ | intros i r; unfold pick; by destruct (elem false lax i)
      | apply length_make ].
  by rewrite (tabulate_elem false (fun c => pick noData c rx)).
Qed.

Lemma ternaryIfStage_scalar_vector lx rax :
  ternaryIfStage (VBool lx) (VFloat32s rax) P
  = Ok (VFloat32s (pick noData lx <$> rax)).
Proof.
  unfold ternaryIfStage. rewrite resolved. simpl.
  rewrite (forRange_assign _ (fun i => pick noData lx (elem F32.zero rax i)));
    [ | intros i r; by destruct lx | apply length_make ].
  by rewrite (tabulate_elem F32.zero (pick noData lx)).
Qed.

Lemma ternaryIfStage_scalar_scalar lx rx :
  ternaryIfStage (VBool lx) (VFloat32 rx) P
  = Ok (VFloat32 (pick noData lx rx)).
Proof. unfold ternaryIfStage. rewrite resolved. simpl. by destruct lx. Qed.

Lemma ternaryElseStage_vector_vector lax rax :
  length lax = length rax ->
  ternaryElseStage (VFloat32s lax) (VFloat32s rax) P
  = Ok (VFloat32s (zip_with (fill noData) lax rax)).
Proof.
  intros Hlen. unfold ternaryElseStage. rewrite resolved. simpl.
  rewrite Hlen, Nat.eqb_refl. simpl. rewrite <- Hlen.
  rewrite (forRange_assign _
    (fun i => fill noData (elem F32.zero lax i) (elem F32.zero rax i)));
    [ | intros i r; unfold fill; by destruct (F32.eqb _ _)
      | apply length_make ].
  by rewrite tabulate_elem2.
Qed.

Lemma ternaryElseStage_vector_scalar lax rx :
  ternaryElseStage (VFloat32s lax) (VFloat32 rx) P
  = Ok (VFloat32s ((fun x => fill noData x rx) <$> lax)).
Proof.
  unfold ternaryElseStage. rewrite resolved. simpl.
  rewrite (forRange_assign _ (fun i => fill noData (elem F32.zero lax i) rx));
    [ | intros i r; unfold fill; by destruct (F32.eqb _ _)
      | apply length_make ].
  by rewrite (tabulate_elem F32.zero (fun x => fill noData x rx)).
Qed.

Lemma ternaryElseStage_scalar_vector lx rax :
  ternaryElseStage (VFloat32 lx) (VFloat32s rax) P
  = Ok (VFloat32s (fill noData lx <$> rax)).
Proof.
  unfold ternaryElseStage. rewrite resolved. simpl.
  rewrite (forRange_assign _ (fun i => fill noData lx (elem F32.zero rax i)));
    [ | intros i r; unfold fill; by destruct (F32.eqb _ _)
      | apply length_make ].
  by rewrite (tabulate_elem F32.zero (fill noData lx)).
Qed.

Lemma ternaryElseStage_scalar_scalar lx rx :
  ternaryElseStage (VFloat32 lx) (VFloat32 rx) P
  = Ok (VFloat32 (fill noData lx rx)).
Proof.
  unfold ternaryElseStage, fill. rewrite resolved. simpl.
  by destruct (F32.eqb _ _).
Qed.

(** The lane that [fill] leaves after [pick], when the sentinel equals
    itself. *)
Lemma fill_pick cb av bv :
  F32.eqb noData noData = true ->
  fill noData (pick noData cb av) bv
  = if cb && negb (F32.eqb av noData) then av else bv.
Proof.
  intros Hnd. unfold fill, pick.
  destruct cb; simpl; [by destruct (F32.eqb av _)|by rewrite Hnd].
Qed.
(** The two ternary kernels make the same length check, once the sentinel
    has resolved. *)
Lemma ternaryIfStage_mismatch lax rax :
  length lax <> length rax ->
  ternaryIfStage (VBools lax) (VFloat32s rax) P
  = Fail (DifferentArraySizes (length lax) (length rax)).
Proof.
  intros Hlen. unfold ternaryIfStage. rewrite resolved. simpl.
  by apply Nat.eqb_neq in Hlen as ->.
Qed.

Lemma ternaryElseStage_mismatch lax rax :
  length lax <> length rax ->
  ternaryElseStage (VFloat32s lax) (VFloat32s rax) P
  = Fail (DifferentArraySizes (length lax) (length rax)).
Proof.
  intros Hlen. unfold ternaryElseStage. rewrite resolved. simpl.
  by apply Nat.eqb_neq in Hlen as ->.
Qed.
End TernaryFacts.

(** ** The ternary identity *)

Ltac ternary_shape P noData Hnd :=
  unfold ternaryIfElse;
  first
    [ rewrite (ternaryIfStage_vector_vector P noData Hnd) by lia
    | rewrite (ternaryIfStage_vector_scalar P noData Hnd)
    | rewrite (ternaryIfStage_scalar_vector P noData Hnd)
    | rewrite (ternaryIfStage_scalar_scalar P noData Hnd) ];
  first
    [ rewrite (ternaryElseStage_vector_vector P noData Hnd)
        by (rewrite ?length_zip_with, ?length_fmap; lia)
    | rewrite (ternaryElseStage_vector_scalar P noData Hnd)
    | rewrite (ternaryElseStage_scalar_vector P noData Hnd)
    | rewrite (ternaryElseStage_scalar_scalar P noData Hnd) ].

(** C1, as the code has it.  When the sentinel resolves to a number that
    equals itself (it is not a NaN) and the vectors among [c], [a] and [b]
    all have length [n], the composition of the two ternary kernels returns
    a value of the common shape whose lane [i] is the lane of [a] where [c]
    holds and that lane of [a] differs from the sentinel, and the lane of
    [b] elsewhere. *)
Theorem ternary_identity_modulo_nodata P noData c a b n :
  getNoData P = (noData, None) ->
  F32.eqb noData noData = true ->
  isBool c = true -> isFloat32 a = true -> isFloat32 b = true ->
  fits n c = true -> fits n a = true -> fits n b = true ->
  exists r,
    ternaryIfElse c a b P = Ok r /\
    vectorLength r = commonLength c a b /\
    forall i cb av bv,
      boolLane c i = Some cb -> numberLane a i = Some av ->
      numberLane b i = Some bv ->
      numberLane r i
      = Some (if cb && negb (F32.eqb av noData) then av else bv).
Proof.
  intros Hnd Hrefl Hc Ha Hb Fc Fa Fb.
  destruct c; try discriminate Hc;
    destruct a; try discriminate Ha;
    destruct b; try discriminate Hb;
    unfold fits in Fc, Fa, Fb; simpl in Fc, Fa, Fb;
    repeat match goal with
           | H : Nat.eqb _ _ = true |- _ => apply Nat.eqb_eq in H
           end;
    ternary_shape P noData Hnd;
    (eexists; split; [reflexivity|]; split;
     [ unfold commonLength; simpl;
       repeat (rewrite length_zip_with || rewrite length_fmap); f_equal; lia
     | intros i cb av bv Hcb Hav Hbv; simpl in Hcb, Hav, Hbv; simpl;
       rewrite ?lookup_zip_with, ?list_lookup_fmap;
       rewrite ?lookup_zip_with, ?list_lookup_fmap;
       simplify_eq; rewrite ?Hcb, ?Hav, ?Hbv; simpl;
       f_equal; by apply fill_pick ]).
Qed.

(** C10. When [left] is nil and [right] is a number or a vector of numbers,
    [ternaryElseStage] compares the zero value that the failed assertion
    leaves in [lx] with the sentinel: it returns [right] (a vector lane by
    lane) when the sentinel equals 0, and the operand error for every other
    sentinel. *)
Theorem ternaryElseStage_nil_left P noData right :
  getNoData P = (noData, None) ->
  isFloat32 right = true ->
  ternaryElseStage VNil right P
  = if F32.eqb F32.zero noData then Ok right
    else Fail (InvalidOperand "ternary else").
Proof.
  intros Hnd Hr. unfold ternaryElseStage. rewrite Hnd.
  destruct right as [|rx|rax| | | | | | | | | |]; try discriminate Hr; simpl.
  - by destruct (F32.eqb F32.zero noData).
  - destruct (F32.eqb F32.zero noData) eqn:Hz; simpl; [|done].
    rewrite (forRange_assign _ (fun i => elem F32.zero rax i));
      [ | done | apply length_make ].
    do 2 f_equal. etrans; [exact (tabulate_elem F32.zero id rax)|].
    apply list_fmap_id.
Qed.

(** ** The sentinel *)

Lemma getNoData_default : NoDataDefault F32.SmallestNonzeroFloat32.
Proof. intros P v e H. unfold getNoData. by rewrite H. Qed.

(** C4, as the code has it.  When [Get("nodata")] fails the sentinel is
    [math.SmallestNonzeroFloat32], the smallest positive subnormal number;
    when it returns a [float32] that number is the sentinel; when it
    returns anything else [getNoData] fails, and so do the two ternary
    kernels, with the error that names the value. *)
Theorem getNoData_resolution (P : Parameters) v :
  (forall e, P "nodata" = (v, Some e) ->
     getNoData P = (F32.SmallestNonzeroFloat32, None))
  /\ (forall x, P "nodata" = (VFloat32 x, None) -> getNoData P = (x, None))
  /\ (P "nodata" = (v, None) -> (forall x, v <> VFloat32 x) ->
      getNoData P = (F32.zero, Some (InvalidNoData v)) /\
      forall left right,
        ternaryIfStage left right P = Fail (InvalidNoData v) /\
        ternaryElseStage left right P = Fail (InvalidNoData v)).
Proof.
  split; [|split].
  - intros e H. by apply (getNoData_default P v e).
  - intros x H. unfold getNoData. by rewrite H.
  - intros H Hv.
    assert (Hnd : getNoData P = (F32.zero, Some (InvalidNoData v))).
    { unfold getNoData. rewrite H. destruct v; try reflexivity.
      by destruct (Hv x). }
    split; [done|]. intros left right.
    unfold ternaryIfStage, ternaryElseStage. by rewrite Hnd.
Qed.

(** ** Equality and strings *)

(** C5. [equalStage] and [notEqualStage] only know numbers: as soon as one
    operand is a string they return their operand error and no value. *)
Theorem equality_kernels_reject_strings left right P :
  isString left = true \/ isString right = true ->
  equalStage left right P = Fail (InvalidOperand "==")
  /\ notEqualStage left right P = Fail (InvalidOperand "!=").
Proof.
  intros H.
  assert (Hnum : isFloat32 left = false \/ isFloat32 right = false).
  { destruct H as [H|H]; [left; by destruct left|right; by destruct right]. }
  split; by apply numericStage_operand_error.
Qed.

(** ** Canonicalization *)

Lemma castSlice_fmap {T} (zero : T) conv (t : list T) :
  castSlice zero conv t = conv <$> t.
Proof.
  unfold castSlice.
  erewrite forRange_assign; [ | intros; reflexivity | apply length_make ].
  apply (tabulate_elem zero conv).
Qed.

(** What [castToFloat32] returns is a value that it leaves alone. *)
Lemma castToFloat32_fixed v : castToFloat32 (castToFloat32 v) = castToFloat32 v.
Proof. destruct v as [| | | | | | |[]|[]| | | |]; reflexivity. Qed.

(** C8. Canonicalization is idempotent, on values and on the wrapper of a
    parameter source; an integer of a supported kind and a [float64] become
    their [float32] conversion, a slice of them the slice of the
    conversions, and a [float32] or a [[]float32] is returned as it is. *)
Theorem castToFloat32_idempotent v :
  castToFloat32 (castToFloat32 v) = castToFloat32 v
  /\ (forall p key,
        sanitizedParameters_Get {| orig := sanitizedParameters_Get p |} key
        = sanitizedParameters_Get p key)
  /\ (forall k n, supported k = true ->
        castToFloat32 (VInt k n) = VFloat32 (F32.of_Z n)
        /\ castToFloat32 (VInt k n) = castToFloat32 (VFloat32 (F32.of_Z n)))
  /\ (forall k ns, supported k = true ->
        castToFloat32 (VInts k ns) = VFloat32s (F32.of_Z <$> ns))
  /\ (forall x, castToFloat32 (VFloat64 x) = VFloat32 (F32.of_float64 x))
  /\ (forall xs,
        castToFloat32 (VFloat64s xs) = VFloat32s (F32.of_float64 <$> xs))
  /\ (forall x, castToFloat32 (VFloat32 x) = VFloat32 x)
  /\ (forall xs, castToFloat32 (VFloat32s xs) = VFloat32s xs).
Proof.
  split; [apply castToFloat32_fixed|]. split; [|split; [|split; [|split]]].
  - intros p key. unfold sanitizedParameters_Get. simpl.
    destruct (orig p key) as [w [e|]]; [done|].
    by rewrite castToFloat32_fixed.
  - intros k n Hk. by destruct k.
  - intros k ns Hk. destruct k; try discriminate Hk; simpl;
      by rewrite castSlice_fmap.
  - done.
  - repeat split. intros xs. simpl. by rewrite castSlice_fmap.
Qed.

(** ** Swapping two stages *)

Lemma assignNonStage_fields this other :
  sameNonChildFields (assignNonStage this other) other
  /\ sameChildren (assignNonStage this other) this.
Proof. by repeat split. Qed.

(** C9. [a.swapWith(b)] on two stages of the store: afterwards [a] holds
    the symbol, operator, type checks and error format that [b] had, [b]
    holds those that [a] had, each keeps its own [leftStage] and
    [rightStage], and no other stage of the store changes. *)
Theorem swapWith_exchanges (h : store) a b sa sb :
  h !! a = Some sa -> h !! b = Some sb ->
  exists h' sa' sb',
    swapWith a b h = Some h'
    /\ h' !! a = Some sa' /\ h' !! b = Some sb'
    /\ sameNonChildFields sa' sb /\ sameNonChildFields sb' sa
    /\ sameChildren sa' sa /\ sameChildren sb' sb
    /\ forall c, c <> a -> c <> b -> h' !! c = h !! c.
Proof.
  intros Ha Hb. unfold swapWith, setToNonStage. rewrite Ha, Hb. simpl.
  destruct (decide (a = b)) as [->|Hab].
  - assert (sa = sb) as -> by congruence.
    rewrite lookup_insert_eq. simpl.
    eexists _, _, _. split; [reflexivity|].
    rewrite lookup_insert_eq.
    split; [reflexivity|]. split; [reflexivity|].
    repeat split.
    intros c Hc _. by rewrite !lookup_insert_ne.
  - rewrite lookup_insert_ne, Ha by done. simpl.
    eexists _, _, _. split; [reflexivity|].
    rewrite lookup_insert_eq, lookup_insert_ne, lookup_insert_eq by done.
    split; [reflexivity|]. split; [reflexivity|].
    repeat split.
    intros c Hca Hcb. by rewrite !lookup_insert_ne.
Qed.

(** A nil or dangling pointer on either side is a panic, and the store is
    not returned. *)
Lemma swapWith_nil (h : store) a b :
  h !! a = None \/ h !! b = None -> swapWith a b h = None.
Proof.
  unfold swapWith. intros [H|H]; rewrite H; [|done].
  by destruct (h !! b).
Qed.

(** * Instances *)

(** ** The ternary identity does not hold at the sentinel *)

(** With no [nodata] parameter, [true ? 2^-149 : 1] is 1: the lane of [a]
    is the sentinel itself, and [ternaryElseStage] replaces it. *)
Lemma ternary_identity_fails_at_sentinel :
  ~ TernaryIdentity noParameters (VBool true)
      (VFloat32 F32.SmallestNonzeroFloat32) (VFloat32 F32.one).
Proof.
  intros (r & Hr & Hlanes).
  assert (Hrun : ternaryIfElse (VBool true)
                   (VFloat32 F32.SmallestNonzeroFloat32) (VFloat32 F32.one)
                   noParameters = Ok (VFloat32 F32.one)) by reflexivity.
  rewrite Hrun in Hr. injection Hr as <-.
  specialize (Hlanes 0 true F32.SmallestNonzeroFloat32 F32.one
                eq_refl eq_refl eq_refl).
  discriminate Hlanes.
Qed.

(** [(x > 0) ? x : -x] on [x = [-1, 2, -3]], with the default sentinel. *)
Lemma ternary_identity_modulo_nodata_witness :
  let x := VFloat32s (numbers [-1; 2; -3]%Z) in
  let c := VBools [false; true; false] in
  let minus_x := VFloat32s (numbers [1; -2; 3]%Z) in
  gtStage x (VFloat32 F32.zero) noParameters = Ok c /\
  negateStage VNil x noParameters = Ok minus_x /\
  ternaryIfElse c x minus_x noParameters = Ok (VFloat32s (numbers [1; 2; 3]%Z)) /\
  exists r,
    ternaryIfElse c x minus_x noParameters = Ok r /\
    vectorLength r = commonLength c x minus_x /\
    forall i cb av bv,
      boolLane c i = Some cb -> numberLane x i = Some av ->
      numberLane minus_x i = Some bv ->
      numberLane r i
      = Some (if cb && negb (F32.eqb av F32.SmallestNonzeroFloat32)
              then av else bv).
Proof.
  intros x c minus_x. repeat split; [reflexivity..|].
  apply (ternary_identity_modulo_nodata noParameters
           F32.SmallestNonzeroFloat32 c x minus_x 3); reflexivity.
Defined.

(** ** The default sentinel is not the smallest normal number *)

Lemma getNoData_default_not_MIN_POSITIVE : ~ NoDataDefault F32.MIN_POSITIVE.
Proof.
  intros H.
  specialize (H noParameters VNil
                (HostError "No parameter 'nodata' found.") eq_refl).
  discriminate H.
Qed.

Lemma getNoData_resolution_witness :
  getNoData noParameters = (F32.SmallestNonzeroFloat32, None)
  /\ getNoData (withNoData (VFloat32 F32.one)) = (F32.one, None)
  /\ ternaryIfStage (VBool true) (VFloat32 F32.one) (withNoData (VString "none"))
     = Fail (InvalidNoData (VString "none"))
  /\ ternaryElseStage (VFloat32 F32.one) (VFloat32 F32.one)
       (withNoData (VString "none"))
     = Fail (InvalidNoData (VString "none")).
Proof.
  split; [|split].
  - exact (proj1 (getNoData_resolution noParameters VNil) _ eq_refl).
  - exact (proj1 (proj2 (getNoData_resolution (withNoData (VFloat32 F32.one))
                           (VFloat32 F32.one))) _ eq_refl).
  - assert (Hv : forall x, VString "none" <> VFloat32 x) by discriminate.
    destruct (proj2 (proj2 (getNoData_resolution (withNoData (VString "none"))
                              (VString "none"))) eq_refl Hv) as [_ Hk].
    split; [apply (Hk (VBool true))|apply (Hk (VFloat32 F32.one))].
Defined.

(** ** Broadcasting and shapes *)

(** [a + 10] with [a = [1, 2, 3]] is [[11, 12, 13]]. *)
Example add_vector_scalar :
  addStage Stub.fmt_v (VFloat32s (numbers [1; 2; 3]%Z)) (VFloat32 (F32.of_Z 10))
    noParameters
  = Ok (VFloat32s (numbers [11; 12; 13]%Z)).
Proof. reflexivity. Qed.

(** [a + b] with [a = [1, 2]] and [b = [10, 20]] is [[11, 22]]. *)
Example add_vector_vector :
  addStage Stub.fmt_v (VFloat32s (numbers [1; 2]%Z)) (VFloat32s (numbers [10; 20]%Z))
    noParameters
  = Ok (VFloat32s (numbers [11; 22]%Z)).
Proof. reflexivity. Qed.

Lemma broadcasting_law_witness :
  let op := addStage Stub.fmt_v in
  let v := numbers [1; 2; 3]%Z in
  let s := F32.of_Z 10 in
  In op stubKernels /\
  (exists r, op (VFloat32s v) (VFloat32 s) noParameters = Ok r /\
     vectorLength r = Some (length v) /\
     forall i x, v !! i = Some x ->
       exists y, lane r i = Some y /\
                 op (VFloat32 x) (VFloat32 s) noParameters = Ok y).
Proof.
  intros op v s.
  assert (Hin : In op stubKernels) by (simpl; auto).
  split; [exact Hin|].
  exact (proj1 (broadcasting_law Stub.math_Pow Stub.math_Mod
                  Stub.int64_unrepresentable Stub.uint64_unrepresentable
                  Stub.fmt_v op v s noParameters Hin)).
Defined.


(** ** Strings *)

Lemma equality_kernels_reject_strings_witness :
  equalStage (VString "a") (VString "a") noParameters
  = Fail (InvalidOperand "==")
  /\ notEqualStage (VString "a") (VFloat32 F32.one) noParameters
     = Fail (InvalidOperand "!=").
Proof.
  split.
  - apply (equality_kernels_reject_strings (VString "a") (VString "a")).
    by left.
  - apply (equality_kernels_reject_strings (VString "a") (VFloat32 F32.one)).
    by left.
Defined.

Lemma addStage_concatenates_witness :
  addStage Stub.fmt_v (VString "foo") (VString "bar") noParameters
  = Ok (VString "foobar")
  /\ addStage Stub.fmt_v (VFloat32 F32.one) (VString "bar") noParameters
     = Ok (VString (Stub.fmt_v (VFloat32 F32.one) +:+ "bar")).
Proof.
  split.
  - apply (addStage_concatenates Stub.fmt_v (VString "foo") (VString "bar")).
    by left.
  - apply (addStage_concatenates Stub.fmt_v (VFloat32 F32.one) (VString "bar")).
    by right.
Defined.

Lemma regex_round_trip_witness :
  isRegexOrString (VString "oba") = true
  /\ regexStage Stub.regexp_Compile Stub.regexp_Match
       (VString "foobar") (VString "oba") noParameters = Ok (VBool true)
  /\ notRegexStage Stub.regexp_Compile Stub.regexp_Match
       (VString "foobar") (VString "oba") noParameters = Ok (VBool false).
Proof.
  split; [reflexivity|]. split; [reflexivity|].
  apply (proj1 (regex_round_trip Stub.regexp_Compile Stub.regexp_Match
                  "foobar" (VString "oba") noParameters eq_refl) true).
  reflexivity.
Defined.

(** ** Canonicalization *)

Lemma castToFloat32_idempotent_witness :
  supported Int8 = true
  /\ castToFloat32 (VInt Int8 (-3)) = VFloat32 (F32.of_Z (-3))
  /\ castToFloat32 (VInts Uint16 [1; 2; 65535]%Z)
     = VFloat32s (numbers [1; 2; 65535]%Z).
Proof.
  destruct (castToFloat32_idempotent VNil)
    as (_ & _ & Hint & Hints & _).
  split; [reflexivity|]. split.
  - apply (Hint Int8). reflexivity.
  - apply (Hints Uint16). reflexivity.
Defined.

(** A [uint] is not one of the cases: it stays an integer. *)
Example castToFloat32_uint n : castToFloat32 (VInt Uint n) = VInt Uint n.
Proof. reflexivity. Qed.

(** ** Stages *)

Lemma swapWith_exchanges_witness :
  let h : store := {[ 1%positive := plusStage; 2%positive := andStageNode ]} in
  exists h' sa' sb',
    swapWith 1%positive 2%positive h = Some h'
    /\ h' !! 1%positive = Some sa' /\ h' !! 2%positive = Some sb'
    /\ sameNonChildFields sa' andStageNode /\ sameNonChildFields sb' plusStage
    /\ sameChildren sa' plusStage /\ sameChildren sb' andStageNode
    /\ forall c, c <> 1%positive -> c <> 2%positive -> h' !! c = h !! c.
Proof.
  intros h.
  apply (swapWith_exchanges h 1%positive 2%positive plusStage andStageNode);
    reflexivity.
Defined.

(** ** Nil on the left of the ternary else *)

Lemma ternaryElseStage_nil_left_witness :
  ternaryElseStage VNil (VFloat32s (numbers [1; 2]%Z))
    (withNoData (VFloat32 F32.zero))
  = Ok (VFloat32s (numbers [1; 2]%Z))
  /\ ternaryElseStage VNil (VFloat32 F32.one) noParameters
     = Fail (InvalidOperand "ternary else").
Proof.
  split.
  - exact (ternaryElseStage_nil_left (withNoData (VFloat32 F32.zero)) F32.zero
             (VFloat32s (numbers [1; 2]%Z)) eq_refl eq_refl).
  - exact (ternaryElseStage_nil_left noParameters F32.SmallestNonzeroFloat32
             (VFloat32 F32.one) eq_refl eq_refl).
Defined.

(** * Further properties *)

(** ** Shapes and lanes of the numeric kernels *)

Lemma compatible_vectors (xs ys : list float32) :
  compatible (VFloat32s xs) (VFloat32s ys) = true -> length xs = length ys.
Proof. unfold compatible. simpl. apply Nat.eqb_eq. Qed.

Section BroadcastShapes.
Context {T : Type} (zero : T).
Context (scalar : T -> value) (vector : list T -> value).
Context (name : string) (op : float32 -> float32 -> T) (P : Parameters).
Hypothesis vector_length : forall l, vectorLength (vector l) = Some (length l).
Hypothesis scalar_length : forall x, vectorLength (scalar x) = None.
Hypothesis vector_lane : forall l i, lane (vector l) i = scalar <$> l !! i.

Local Abbreviation kernel := (numericStage zero scalar vector name op).

Lemma numericStage_accepts l r :
  isFloat32 l = true -> isFloat32 r = true -> compatible l r = true ->
  exists v, kernel l r P = Ok v /\ vectorLength v = joinLength l r.
Proof.
  intros Hl Hr Hc.
  destruct l as [|lx|lax| | | | | | | | | |]; try discriminate Hl;
    destruct r as [|rx|rax| | | | | | | | | |]; try discriminate Hr.
  - eexists. split; [apply numericStage_scalar_scalar|]. by rewrite scalar_length.
  - eexists. split; [apply numericStage_scalar_vector|].
    by rewrite vector_length, length_fmap.
  - eexists. split; [apply numericStage_vector_scalar|].
    by rewrite vector_length, length_fmap.
  - apply compatible_vectors in Hc.
    eexists. split; [by apply numericStage_vector_vector|].
    rewrite vector_length, length_zip_with. unfold joinLength.
    cbn [vectorLength]. f_equal. lia.
Qed.

Lemma numericStage_rejects l r :
  isFloat32 l = true -> isFloat32 r = true -> compatible l r = false ->
  exists m n, m <> n /\ vectorLength l = Some m /\ vectorLength r = Some n /\
    kernel l r P = Fail (DifferentArraySizes m n).
Proof.
  intros Hl Hr Hc.
  destruct l as [|lx|lax| | | | | | | | | |]; try discriminate Hl;
    destruct r as [|rx|rax| | | | | | | | | |]; try discriminate Hr;
    try discriminate Hc.
  unfold compatible in Hc. simpl in Hc. apply Nat.eqb_neq in Hc.
  exists (length lax), (length rax). repeat split; [done|].
  by apply numericStage_mismatch.
Qed.

Lemma numericStage_lanes u w :
  length u = length w ->
  exists res, kernel (VFloat32s u) (VFloat32s w) P = Ok res /\
    vectorLength res = Some (length u) /\
    forall i x y, u !! i = Some x -> w !! i = Some y ->
      exists z, lane res i = Some z /\
                kernel (VFloat32 x) (VFloat32 y) P = Ok z.
Proof.
  intros Hlen. eexists. split; [by apply numericStage_vector_vector|]. split.
  - rewrite vector_length, length_zip_with. f_equal. lia.
  - intros i x y Hx Hy. exists (scalar (op x y)). split; [|done].
    rewrite vector_lane, lookup_zip_with, Hx. simpl. by rewrite Hy.
Qed.

(** The outcome of the kernel is decided by the types and the lengths of
    the operands. *)
Lemma numericStage_trichotomy l r :
  (exists v, kernel l r P = Ok v)
  \/ (exists m n, m <> n /\ kernel l r P = Fail (DifferentArraySizes m n))
  \/ kernel l r P = Fail (InvalidOperand name).
Proof.
  destruct (isFloat32 l) eqn:Hl; [|right; right; apply numericStage_operand_error; auto].
  destruct (isFloat32 r) eqn:Hr; [|right; right; apply numericStage_operand_error; auto].
  destruct (compatible l r) eqn:Hc.
  - left. destruct (numericStage_accepts l r Hl Hr Hc) as (v & Hv & _). eauto.
  - right. left.
    destruct (numericStage_rejects l r Hl Hr Hc) as (m & n & Hmn & _ & _ & H).
    eauto.
Qed.
End BroadcastShapes.

Lemma numericStage_operand_error_iff {T} (zero : T) scalar vector name op l r P :
  numericStage zero scalar vector name op l r P = Fail (InvalidOperand name)
  <-> isFloat32 l && isFloat32 r = false.
Proof.
  split.
  - intros H. destruct (isFloat32 l) eqn:Hl; [|done].
    destruct (isFloat32 r) eqn:Hr; [|done]. exfalso. revert H.
    destruct l as [|lx|lax| | | | | | | | | |]; try discriminate Hl;
      destruct r as [|rx|rax| | | | | | | | | |]; try discriminate Hr;
      unfold numericStage; simpl; try discriminate.
    by destruct (Nat.eqb (length lax) (length rax)).
  - intros H. apply numericStage_operand_error.
    apply andb_false_iff in H. tauto.
Qed.

Lemma numericStage_no_panic {T} (zero : T) scalar vector name op l r P :
  numericStage zero scalar vector name op l r P <> Panic.
Proof.
  unfold numericStage.
  destruct (assertFloat32s l) as [lax []], (assertFloat32 l) as [lx []],
    (assertFloat32s r) as [rax []], (assertFloat32 r) as [rx []]; simpl;
    try discriminate;
    by destruct (Nat.eqb (length lax) (length rax)).
Qed.

Lemma logicalStage_operand_error_iff name op l r P :
  logicalStage name op l r P = Fail (InvalidOperand name)
  <-> isBool l && isBool r = false.
Proof.
  split.
  - intros H. destruct (isBool l) eqn:Hl; [|done].
    destruct (isBool r) eqn:Hr; [|done]. exfalso. revert H.
    destruct l as [| | |lx|lax| | | | | | | |]; try discriminate Hl;
      destruct r as [| | |rx|rax| | | | | | | |]; try discriminate Hr;
      unfold logicalStage; simpl; try discriminate.
    by destruct (Nat.eqb (length lax) (length rax)).
  - intros H. unfold logicalStage.
    destruct l, r; try discriminate H; reflexivity.
Qed.

Lemma logicalStage_no_panic name op l r P : logicalStage name op l r P <> Panic.
Proof.
  unfold logicalStage.
  destruct (assertBools l) as [lax []], (assertBool l) as [lx []],
    (assertBools r) as [rax []], (assertBool r) as [rx []]; simpl;
    try discriminate;
    by destruct (Nat.eqb (length lax) (length rax)).
Qed.

Lemma stringComparator_no_panic cmp l r :
  isString l && isString r = true -> stringComparator cmp l r <> Panic.
Proof. by destruct l, r. Qed.

Section FurtherKernelProperties.
Variable math_Pow : float64 -> float64 -> float64.
Variable math_Mod : float64 -> float64 -> float64.
Variable int64_unrepresentable : float32 -> Z.
Variable uint64_unrepresentable : float32 -> Z.
Variable fmt_v : value -> string.

Local Abbreviation numeric :=
  (numericKernels math_Pow math_Mod int64_unrepresentable
     uint64_unrepresentable fmt_v).

(** X1. Shape of the results: on two operands that are numbers or vectors
    of numbers, and not two vectors of different lengths, every numeric
    kernel succeeds; the result is a vector exactly when an operand is one,
    with that operand's length, and holds numbers or booleans. *)
Theorem numeric_kernel_result_shape op l r P :
  In op numeric ->
  isFloat32 l = true -> isFloat32 r = true -> compatible l r = true ->
  exists v, op l r P = Ok v /\ vectorLength v = joinLength l r /\
            isFloat32 v || isBool v = true.
Proof.
  intros Hin Hl Hr Hc.
  destruct (numericKernels_matrix _ _ _ _ _ op Hin)
    as [(name & f & Hop)|(name & f & Hop)]; rewrite Hop by done.
  - destruct (numericStage_accepts F32.zero VFloat32 VFloat32s name f P
                (fun _ => eq_refl) (fun _ => eq_refl) l r Hl Hr Hc)
      as (v & Hv & Hlen).
    exists v. repeat split; [done..|].
    revert Hv. unfold numericStage.
    destruct (assertFloat32s l) as [? []], (assertFloat32 l) as [? []],
      (assertFloat32s r) as [? []], (assertFloat32 r) as [? []]; simpl;
      try destruct (Nat.eqb _ _); simpl; intros [= <-]; done.
  - destruct (numericStage_accepts false VBool VBools name f P
                (fun _ => eq_refl) (fun _ => eq_refl) l r Hl Hr Hc)
      as (v & Hv & Hlen).
    exists v. repeat split; [done..|].
    revert Hv. unfold numericStage.
    destruct (assertFloat32s l) as [? []], (assertFloat32 l) as [? []],
      (assertFloat32s r) as [? []], (assertFloat32 r) as [? []]; simpl;
      try destruct (Nat.eqb _ _); simpl; intros [= <-]; done.
Qed.

(** X2. Element-wise law: on two vectors of the same length every numeric
    kernel returns a vector of that length whose lane [i] is what the
    kernel returns on the scalars [u[i]] and [w[i]]. *)
Theorem numeric_kernel_elementwise op u w P :
  In op numeric ->
  length u = length w ->
  exists res, op (VFloat32s u) (VFloat32s w) P = Ok res /\
    vectorLength res = Some (length u) /\
    forall i x y, u !! i = Some x -> w !! i = Some y ->
      exists z, lane res i = Some z /\ op (VFloat32 x) (VFloat32 y) P = Ok z.
Proof.
  intros Hin Hlen.
  destruct (numericKernels_matrix _ _ _ _ _ op Hin)
    as [(name & f & Hop)|(name & f & Hop)].
  - destruct (numericStage_lanes F32.zero VFloat32 VFloat32s name f P
                (fun _ => eq_refl) (fun _ _ => eq_refl) u w Hlen)
      as (res & Hres & Hl & Hlanes).
    exists res. rewrite Hop by done. repeat split; [done..|].
    intros i x y Hx Hy. destruct (Hlanes i x y Hx Hy) as (z & ? & ?).
    exists z. by rewrite Hop.
  - destruct (numericStage_lanes false VBool VBools name f P
                (fun _ => eq_refl) (fun _ _ => eq_refl) u w Hlen)
      as (res & Hres & Hl & Hlanes).
    exists res. rewrite Hop by done. repeat split; [done..|].
    intros i x y Hx Hy. destruct (Hlanes i x y Hx Hy) as (z & ? & ?).
    exists z. by rewrite Hop.
Qed.

(** X3. The two combined type checks are exact: [addStage] returns its
    operand error exactly on the pairs that [additionTypeCheck] refuses, and
    each of the four comparators exactly on the pairs that
    [comparatorTypeCheck] refuses. *)
Theorem combined_type_checks_exact l r P :
  (addStage fmt_v l r P = Fail (InvalidOperand "addition")
   <-> additionTypeCheck l r = false)
  /\ forall op name, In (op, name) comparatorKernelNames ->
       (op l r P = Fail (InvalidOperand name)
        <-> comparatorTypeCheck l r = false).
Proof.
  split.
  - unfold additionTypeCheck.
    destruct (isString l) eqn:Hsl; [|destruct (isString r) eqn:Hsr].
    + unfold addStage. rewrite Hsl. simpl.
      split; [discriminate|]. destruct l; try discriminate Hsl. by destruct r.
    + unfold addStage. rewrite Hsl, Hsr. simpl.
      split; [discriminate|]. destruct r; try discriminate Hsr.
      by destruct (isFloat32 l).
    + rewrite (addStage_numeric fmt_v l r P Hsl Hsr).
      unfold arithmeticStage. rewrite numericStage_operand_error_iff. simpl.
      by destruct (isFloat32 l && isFloat32 r).
  - intros op name Hin. unfold comparatorTypeCheck. simpl in Hin.
    destruct Hin as [[= <- <-]|[[= <- <-]|[[= <- <-]|[[= <- <-]|[]]]]];
      unfold gteStage, gtStage, lteStage, ltStage, comparisonStage;
      (destruct (isString l && isString r) eqn:Hs;
       [ split;
         [ destruct l; try discriminate Hs; destruct r; discriminate
         | destruct l; try discriminate Hs; destruct r; discriminate ]
       | rewrite numericStage_operand_error_iff;
         by destruct (isFloat32 l && isFloat32 r) ]).
Qed.

(** X4. Operand errors: each of the other numeric kernels returns the
    operand error that carries its own operator name exactly when an
    operand is neither a number nor a vector of numbers, and [&&] and [||]
    exactly when an operand is neither a boolean nor a vector of
    booleans. *)
Theorem operand_error_exact op name l r P :
  (In (op, name) (arithmeticKernelNames math_Pow math_Mod
                    int64_unrepresentable uint64_unrepresentable) ->
   (op l r P = Fail (InvalidOperand name)
    <-> isFloat32 l && isFloat32 r = false))
  /\ (In (op, name) logicalKernelNames ->
      (op l r P = Fail (InvalidOperand name)
       <-> isBool l && isBool r = false)).
Proof.
  split; intros Hin; simpl in Hin.
  - repeat (destruct Hin as [[= <- <-]|Hin]); try contradiction;
      apply numericStage_operand_error_iff.
  - repeat (destruct Hin as [[= <- <-]|Hin]); try contradiction;
      apply logicalStage_operand_error_iff.
Qed.

End FurtherKernelProperties.

(** ** Laws between the kernels *)

Lemma fmap_zip_with {A B C D} (f : C -> D) (g : A -> B -> C) xs ys :
  f <$> zip_with g xs ys = zip_with (fun x y => f (g x y)) xs ys.
Proof.
  revert ys. induction xs as [|x xs IH]; intros [|y ys]; simpl; try done.
  by rewrite IH.
Qed.

Lemma zip_with_swap {A B C} (g : A -> B -> C) xs ys :
  zip_with g xs ys = zip_with (fun y x => g x y) ys xs.
Proof.
  revert ys. induction xs as [|x xs IH]; intros [|y ys]; simpl; try done.
  by rewrite IH.
Qed.

Lemma zip_with_fmap_both {A B C D E} (g : C -> D -> E) (f : A -> C) (h : B -> D)
    xs ys :
  zip_with g (f <$> xs) (h <$> ys) = zip_with (fun x y => g (f x) (h y)) xs ys.
Proof.
  revert ys. induction xs as [|x xs IH]; intros [|y ys]; simpl; try done.
  by rewrite IH.
Qed.

Lemma invertStage_vector left bs P :
  invertStage left (VBools bs) P = Ok (VBools (negb <$> bs)).
Proof.
  unfold invertStage. simpl.
  erewrite forRange_assign; [ | intros; reflexivity | apply length_make ].
  by rewrite (tabulate_elem false negb).
Qed.

Lemma negateStage_vector left xs P :
  negateStage left (VFloat32s xs) P = Ok (VFloat32s (F32.neg <$> xs)).
Proof.
  unfold negateStage. simpl.
  erewrite forRange_assign; [ | intros; reflexivity | apply length_make ].
  by rewrite (tabulate_elem F32.zero F32.neg).
Qed.

(** X6. [a != b] is [!(a == b)]: on numbers and vectors of numbers, when
    [equalStage] returns a value, [invertStage] turns it into what
    [notEqualStage] returns, and when it returns the error of unequal
    lengths [notEqualStage] returns the same error. *)
Theorem notEqual_inverts_equal l r x P :
  isFloat32 l = true -> isFloat32 r = true ->
  match equalStage l r P with
  | Return v None => invertStage x v P = notEqualStage l r P
  | stopped => notEqualStage l r P = stopped
  end.
Proof.
  intros Hl Hr. unfold equalStage, notEqualStage, comparisonStage.
  destruct l as [|lx|lax| | | | | | | | | |]; try discriminate Hl;
    destruct r as [|rx|rax| | | | | | | | | |]; try discriminate Hr.
  - reflexivity.
  - rewrite !numericStage_scalar_vector, invertStage_vector.
    by rewrite <- list_fmap_compose.
  - rewrite !numericStage_vector_scalar, invertStage_vector.
    by rewrite <- list_fmap_compose.
  - destruct (decide (length lax = length rax)) as [Hlen|Hlen].
    + rewrite !numericStage_vector_vector by done.
      by rewrite invertStage_vector, fmap_zip_with.
    + by rewrite !numericStage_mismatch.
Qed.

(** X7. [a > b] is [b < a] and [a >= b] is [b <= a]: on every pair that
    [comparatorTypeCheck] accepts, two strings included, and that is not
    two vectors of different lengths, the kernels return the same
    outcome. *)
Theorem comparators_swap l r P :
  comparatorTypeCheck l r = true -> compatible l r = true ->
  gtStage l r P = ltStage r l P /\ gteStage l r P = lteStage r l P.
Proof.
  intros Hcheck Hc. unfold comparatorTypeCheck in Hcheck.
  destruct (isFloat32 l && isFloat32 r) eqn:Hnum.
  - apply andb_true_iff in Hnum as [Hl Hr].
    unfold gtStage, ltStage, gteStage, lteStage, comparisonStage.
    destruct l as [|lx|lax| | | | | | | | | |]; try discriminate Hl;
      destruct r as [|rx|rax| | | | | | | | | |]; try discriminate Hr; simpl.
    + done.
    + by rewrite !numericStage_scalar_vector, !numericStage_vector_scalar.
    + by rewrite !numericStage_scalar_vector, !numericStage_vector_scalar.
    + apply compatible_vectors in Hc.
      rewrite !numericStage_vector_vector by done.
      by rewrite (zip_with_swap F32.ltb), (zip_with_swap F32.leb).
  - destruct l; try discriminate Hcheck; destruct r; try discriminate Hcheck.
    done.
Qed.


Lemma F32_neg_involutive x : F32.neg (F32.neg x) = x.
Proof. destruct x as [[]|[]| |[] ? ?]; reflexivity. Qed.

Lemma F32_add_comm x y : F32.add x y = F32.add y x.
Proof.
  unfold F32.add, SFadd.
  destruct x as [[]|[]| |sx mx ex], y as [[]|[]| |sy my ey]; try reflexivity.
  by rewrite (Z.min_comm ex ey), Z.add_comm.
Qed.

Lemma F32_mul_comm x y : F32.mul x y = F32.mul y x.
Proof.
  unfold F32.mul, SFmul.
  destruct x as [[]|[]| |sx mx ex], y as [[]|[]| |sy my ey]; try reflexivity;
    try (by destruct sy); try (by destruct sx).
  by rewrite (xorb_comm sx sy), (Pos.mul_comm mx my), (Z.add_comm ex ey).
Qed.

Lemma F32_eqb_sym x y : F32.eqb x y = F32.eqb y x.
Proof.
  unfold F32.eqb, SFeqb, SFcompare.
  destruct x as [[]|[]| |sx mx ex], y as [[]|[]| |sy my ey]; try reflexivity;
    try (by destruct sy); try (by destruct sx).
  destruct sx, sy; try reflexivity;
    rewrite (Z.compare_antisym ex ey);
    destruct (Z.compare ex ey); simpl; try reflexivity;
    fold (Pos.compare mx my); fold (Pos.compare my mx);
    rewrite (Pos.compare_antisym mx my);
    by destruct (Pos.compare mx my).
Qed.

(** X9. The prefix kernels [-] and [!] undo themselves: negating twice a
    number or a vector of numbers, and inverting twice a boolean or a
    vector of booleans, returns the operand; the left operand plays no
    part. *)
Theorem prefix_kernels_involutive v x y P :
  (isFloat32 v = true ->
   exists w, negateStage x v P = Ok w /\ negateStage y w P = Ok v)
  /\ (isBool v = true ->
      exists w, invertStage x v P = Ok w /\ invertStage y w P = Ok v).
Proof.
  split; intros Hv.
  - destruct v as [|a|xs| | | | | | | | | |]; try discriminate Hv.
    + eexists. split; [reflexivity|].
      unfold negateStage. simpl. by rewrite F32_neg_involutive.
    + eexists. split; [apply negateStage_vector|].
      rewrite negateStage_vector, <- list_fmap_compose.
      do 2 f_equal. rewrite <- (list_fmap_id xs) at 2.
      apply list_fmap_ext. intros ? a ?. apply F32_neg_involutive.
  - destruct v as [| | |a|bs| | | | | | | |]; try discriminate Hv.
    + eexists. split; [reflexivity|].
      unfold invertStage. simpl. by rewrite negb_involutive.
    + eexists. split; [apply invertStage_vector|].
      rewrite invertStage_vector, <- list_fmap_compose.
      do 2 f_equal. rewrite <- (list_fmap_id bs) at 2.
      apply list_fmap_ext. intros ? a ?. apply negb_involutive.
Qed.

Lemma compatible_bool_vectors (xs ys : list bool) :
  compatible (VBools xs) (VBools ys) = true -> length xs = length ys.
Proof. unfold compatible. simpl. apply Nat.eqb_eq. Qed.

Lemma invertStage_bool (v : value) x P :
  isBool v = true ->
  invertStage x v P
  = Ok (match v with
        | VBool b => VBool (negb b)
        | VBools bs => VBools (negb <$> bs)
        | _ => VNil
        end).
Proof.
  intros Hv. destruct v; try discriminate Hv;
    [reflexivity|apply invertStage_vector].
Qed.

(** X10. De Morgan: on booleans and vectors of booleans that are not two
    vectors of different lengths, [!(a && b)] is [!a || !b] and
    [!(a || b)] is [!a && !b], kernel by kernel. *)
Theorem logical_kernels_de_morgan l r x P :
  isBool l = true -> isBool r = true -> compatible l r = true ->
  exists nl nr,
    invertStage x l P = Ok nl /\ invertStage x r P = Ok nr /\
    (exists v, andStage l r P = Ok v /\ invertStage x v P = orStage nl nr P) /\
    (exists v, orStage l r P = Ok v /\ invertStage x v P = andStage nl nr P).
Proof.
  intros Hl Hr Hc. do 2 eexists.
  split; [by apply invertStage_bool|]. split; [by apply invertStage_bool|].
  unfold andStage, orStage.
  destruct l as [| | |a|la| | | | | | | |]; try discriminate Hl;
    destruct r as [| | |b|lb| | | | | | | |]; try discriminate Hr.
  - split; eexists; (split; [reflexivity|]); unfold invertStage, logicalStage;
      simpl; by destruct a, b.
  - rewrite !logicalStage_scalar_vector.
    split; eexists; (split; [reflexivity|]);
      rewrite invertStage_vector, <- !list_fmap_compose; do 2 f_equal;
      apply list_fmap_ext; intros ? c ?; simpl; by destruct a, c.
  - rewrite !logicalStage_vector_scalar.
    split; eexists; (split; [reflexivity|]);
      rewrite invertStage_vector, <- !list_fmap_compose; do 2 f_equal;
      apply list_fmap_ext; intros ? c ?; simpl; by destruct b, c.
  - apply compatible_bool_vectors in Hc.
    rewrite !logicalStage_vector_vector by (rewrite ?length_fmap; done).
    split; eexists; (split; [reflexivity|]);
      rewrite invertStage_vector, fmap_zip_with, zip_with_fmap_both;
      do 2 f_equal; apply zip_with_ext; try done; by intros [] [].
Qed.

(** X11. Neutral and absorbing operands: [true] is neutral for [&&] and
    [false] for [||], on either side, and on a vector the result is the
    vector itself; [false && v] and [true || v] on a vector [v] are the
    vector of that length filled with [false], resp. [true], not a
    scalar. *)
Theorem logical_kernels_neutral r bs P :
  (isBool r = true ->
   andStage (VBool true) r P = Ok r /\ andStage r (VBool true) P = Ok r /\
   orStage (VBool false) r P = Ok r /\ orStage r (VBool false) P = Ok r)
  /\ andStage (VBool false) (VBools bs) P
     = Ok (VBools (replicate (length bs) false))
  /\ orStage (VBool true) (VBools bs) P
     = Ok (VBools (replicate (length bs) true)).
Proof.
  unfold andStage, orStage. split; [|split].
  - intros Hr. destruct r as [| | |b|lb| | | | | | | |]; try discriminate Hr.
    + repeat split; unfold logicalStage; simpl; by destruct b.
    + rewrite !logicalStage_scalar_vector, !logicalStage_vector_scalar.
      repeat split; do 2 f_equal;
        rewrite <- (list_fmap_id lb) at 2; apply list_fmap_ext;
        intros ? c ?; by destruct c.
  - rewrite logicalStage_scalar_vector. do 2 f_equal.
    induction bs as [|b bs IH]; simpl; [done|]. by rewrite <- IH.
  - rewrite logicalStage_scalar_vector. do 2 f_equal.
    induction bs as [|b bs IH]; simpl; [done|]. by rewrite <- IH.
Qed.

Lemma compatible_sym l r : compatible l r = compatible r l.
Proof.
  unfold compatible.
  destruct (vectorLength l), (vectorLength r); try done. apply Nat.eqb_sym.
Qed.

Lemma numericStage_comm {T} (zero : T) scalar vector name op l r P :
  (forall x y, op x y = op y x) ->
  isFloat32 l = true -> isFloat32 r = true -> compatible l r = true ->
  numericStage zero scalar vector name op l r P
  = numericStage zero scalar vector name op r l P.
Proof.
  intros Hop Hl Hr Hc.
  destruct l as [|lx|lax| | | | | | | | | |]; try discriminate Hl;
    destruct r as [|rx|rax| | | | | | | | | |]; try discriminate Hr.
  - by rewrite !numericStage_scalar_scalar, Hop.
  - rewrite numericStage_scalar_vector, numericStage_vector_scalar.
    do 2 f_equal. apply list_fmap_ext. intros ? y ?. simpl. apply Hop.
  - rewrite numericStage_scalar_vector, numericStage_vector_scalar.
    do 2 f_equal. apply list_fmap_ext. intros ? y ?. simpl. apply Hop.
  - apply compatible_vectors in Hc.
    rewrite !numericStage_vector_vector by done.
    do 2 f_equal. rewrite zip_with_swap. apply zip_with_ext; try done.
Qed.

Lemma logicalStage_comm name op l r P :
  (forall x y, op x y = op y x) ->
  isBool l = true -> isBool r = true -> compatible l r = true ->
  logicalStage name op l r P = logicalStage name op r l P.
Proof.
  intros Hop Hl Hr Hc.
  destruct l as [| | |lx|lax| | | | | | | |]; try discriminate Hl;
    destruct r as [| | |rx|rax| | | | | | | |]; try discriminate Hr.
  - unfold logicalStage. simpl. by rewrite Hop.
  - rewrite logicalStage_scalar_vector, logicalStage_vector_scalar.
    do 2 f_equal. apply list_fmap_ext. intros ? y ?. simpl. apply Hop.
  - rewrite logicalStage_scalar_vector, logicalStage_vector_scalar.
    do 2 f_equal. apply list_fmap_ext. intros ? y ?. simpl. apply Hop.
  - apply compatible_bool_vectors in Hc.
    rewrite !logicalStage_vector_vector by done.
    do 2 f_equal. rewrite zip_with_swap. apply zip_with_ext; try done.
Qed.

(** X12. Commutativity: on numbers and vectors of numbers that are not two
    vectors of different lengths, [+], [*], [==] and [!=] return the same
    outcome when the operands are exchanged, and so do [&&] and [||] on
    booleans. *)
Theorem commutative_kernels (fmt_v : value -> string) l r P :
  compatible l r = true ->
  (isFloat32 l = true -> isFloat32 r = true ->
   addStage fmt_v l r P = addStage fmt_v r l P
   /\ multiplyStage l r P = multiplyStage r l P
   /\ equalStage l r P = equalStage r l P
   /\ notEqualStage l r P = notEqualStage r l P)
  /\ (isBool l = true -> isBool r = true ->
      andStage l r P = andStage r l P /\ orStage l r P = orStage r l P).
Proof.
  intros Hc. split.
  - intros Hl Hr.
    assert (Hsl : isString l = false) by (by destruct l).
    assert (Hsr : isString r = false) by (by destruct r).
    rewrite !addStage_numeric by done.
    repeat split; apply numericStage_comm; try done.
    + apply F32_add_comm.
    + apply F32_mul_comm.
    + apply F32_eqb_sym.
    + intros x y. by rewrite F32_eqb_sym.
  - intros Hl Hr. split; apply logicalStage_comm; try done.
    + apply andb_comm.
    + apply orb_comm.
Qed.

(** [+] on strings is a concatenation, and keeps the order of its
    operands. *)
Example addStage_strings_not_commutative :
  addStage Stub.fmt_v (VString "a") (VString "b") noParameters
  <> addStage Stub.fmt_v (VString "b") (VString "a") noParameters.
Proof. discriminate. Qed.

(** ** Argument lists *)

Lemma separate_list vs rest :
  separate (VList vs) rest = Ok (VList (vs ++ rest)).
Proof.
  unfold separate. revert vs. induction rest as [|v rest IH]; intros vs; simpl.
  - by rewrite app_nil_r.
  - by rewrite IH, <- app_assoc.
Qed.

(** X13. The separator builds argument lists: folded from the left over
    [first, v, rest...], it returns the list of these values in order when
    [first] is not itself a list; when [first] is a list, the values are
    appended to it, so that its elements become arguments of their own. *)
Theorem separator_builds_list first v rest :
  (isArray first = false ->
   separate first (v :: rest) = Ok (VList (first :: v :: rest)))
  /\ (forall vs, first = VList vs ->
      separate first (v :: rest) = Ok (VList (vs ++ v :: rest))).
Proof.
  split.
  - intros Hfirst.
    assert (Hstep : separatorStage first v noParameters = Ok (VList [first; v]))
      by (by destruct first).
    unfold separate. simpl. rewrite Hstep.
    exact (separate_list [first; v] rest).
  - intros vs ->. apply separate_list.
Qed.

(** X14. Arguments of a function call: the list that the separators built
    from two or more values is spread, so that the function receives
    exactly these values; a single value that is neither nil nor a list is
    the only argument; nil is a call without argument; and a single value
    that is a list is spread into its elements. *)
Theorem function_call_arguments (function : ExpressionFunction) x P :
  (forall first v rest, isArray first = false ->
     exists args, separate first (v :: rest) = Ok args /\
       makeFunctionStage function x args P = function (first :: v :: rest))
  /\ (forall a, isArray a = false -> a <> VNil ->
        makeFunctionStage function x a P = function [a])
  /\ makeFunctionStage function x VNil P = function []
  /\ (forall vs, makeFunctionStage function x (VList vs) P = function vs).
Proof.
  split; [|split; [|split]].
  - intros first v rest Hfirst. eexists. split.
    + unfold separate. simpl.
      replace (separatorStage first v noParameters) with (Ok (VList [first; v]))
        by (by destruct first).
      exact (separate_list [first; v] rest).
    + reflexivity.
  - intros a Ha Hnil. by destruct a.
  - reflexivity.
  - reflexivity.
Qed.

(** ** Membership *)

Section Membership.
Variable host_equal : value -> value -> option bool.

Lemma interfaceEqual_scalar l v :
  comparableScalar l = true -> interfaceEqual host_equal l v <> None.
Proof. destruct l; try discriminate; by destruct v. Qed.

(** X15. Membership: when [left] is nil, a number, a boolean or a string,
    [inStage] returns on every list, and returns [true] exactly when [left]
    equals an element of the list; for a [float32] these are the [float32]
    elements that compare equal to it, so that a NaN belongs to no list.
    A vector on the left panics at the first vector of its type in the
    list, and a right operand that is not a list panics. *)
Theorem inStage_membership left values P :
  (comparableScalar left = true ->
   exists b, inStage host_equal left (VList values) P = Ok (VBool b) /\
     (b = true <->
      exists v, In v values /\ interfaceEqual host_equal left v = Some true))
  /\ (forall x, left = VFloat32 x ->
      inStage host_equal left (VList values) P
      = Ok (VBool (existsb (fun v => match v with
                                     | VFloat32 y => F32.eqb x y
                                     | _ => false
                                     end) values)))
  /\ (forall xs ys,
      inStage host_equal (VFloat32s xs) (VList (VFloat32s ys :: values)) P
      = Panic)
  /\ (forall right, isArray right = false ->
      inStage host_equal left right P = Panic).
Proof.
  split; [|split; [|split]].
  - intros Hleft. unfold inStage.
    induction values as [|v values IH]; simpl.
    + exists false. split; [done|]. split; [done|]. by intros (? & [] & _).
    + pose proof (interfaceEqual_scalar left v Hleft) as Hv.
      destruct (interfaceEqual host_equal left v) as [[]|] eqn:Heq; [| |done].
      * exists true. split; [done|]. split; [|done]. intros _. exists v. auto.
      * destruct IH as (b & Hb & Hiff). exists b. split; [done|].
        rewrite Hiff. split.
        -- intros (w & Hw & Hweq). exists w. auto.
        -- intros (w & [<-|Hw] & Hweq); [congruence|]. exists w. auto.
  - intros x ->. unfold inStage.
    induction values as [|v values IH]; simpl; [done|].
    destruct v; simpl; try apply IH.
    destruct (F32.eqb x x0); simpl; [done|apply IH].
  - reflexivity.
  - intros right Hright. by destruct right.
Qed.
End Membership.

(** ** Integers below 2^24 *)

Section SmallIntegers.
Local Open Scope Z_scope.

Lemma digits2_pos_size p : digits2_pos p = Pos.size p.
Proof. induction p; simpl; congruence. Qed.

Lemma digits2_pos_bound p :
  Zpos p < 2 ^ 24 -> Zpos (digits2_pos p) <= 24.
Proof.
  intros Hp. rewrite digits2_pos_size.
  pose proof (Pos.size_le p) as Hle.
  destruct (Z.le_gt_cases (Zpos (Pos.size p)) 24) as [|Hgt]; [done|].
  exfalso.
  assert (H25 : (2 ^ 25 <= 2 ^ Zpos (Pos.size p))) by (apply Z.pow_le_mono_r; lia).
  assert (Hpow : Zpos (2 ^ Pos.size p) = 2 ^ Zpos (Pos.size p)) by (by rewrite Pos2Z.inj_pow).
  assert (Zpos (2 ^ Pos.size p) <= Zpos p~0) by (apply Pos2Z.pos_le_pos, Hle).
  rewrite Hpow in H. rewrite Pos2Z.inj_xO in H.
  change (2 ^ 25) with 33554432 in H25. change (2 ^ 24) with 16777216 in Hp. lia.
Qed.

Lemma digits2_pos_iter_xO p k :
  digits2_pos (Pos.iter xO p k) = (digits2_pos p + k)%positive.
Proof.
  induction k as [|k IH] using Pos.peano_ind.
  - simpl. lia.
  - rewrite Pos.iter_succ. simpl. rewrite IH. lia.
Qed.

Lemma Zpos_iter_xO p k : Zpos (Pos.iter xO p k) = Zpos p * 2 ^ Zpos k.
Proof.
  induction k as [|k IH] using Pos.peano_ind.
  - simpl. lia.
  - rewrite Pos.iter_succ, Pos2Z.inj_xO, IH, Pos2Z.inj_succ, Z.pow_succ_r by lia. lia.
Qed.

(** A mantissa scaled by a power of two. *)
Lemma scaled_mantissa (mx q : positive) n :
  0 <= n -> Zpos mx = Zpos q * 2 ^ n ->
  (n = 0 /\ mx = q) \/ (exists k, n = Zpos k /\ mx = Pos.iter xO q k).
Proof.
  intros Hn Hmx. destruct n as [|k|k]; [left|right|lia].
  - split; [done|]. apply Pos2Z.inj. lia.
  - exists k. split; [done|]. apply Pos2Z.inj. by rewrite Zpos_iter_xO.
Qed.

Lemma digits2_pos_scaled (mx q : positive) n :
  0 <= n -> Zpos mx = Zpos q * 2 ^ n ->
  Zpos (digits2_pos mx) = Zpos (digits2_pos q) + n.
Proof.
  intros Hn Hmx.
  destruct (scaled_mantissa mx q n Hn Hmx) as [[-> ->]|(k & -> & ->)]; [lia|].
  rewrite digits2_pos_iter_xO. lia.
Qed.

Lemma shr_exact k q :
  SpecFloat.iter_pos shr_1 k {| shr_m := Zpos (Pos.iter xO q k); shr_r := false; shr_s := false |}
  = {| shr_m := Zpos q; shr_r := false; shr_s := false |}.
Proof.
  revert q. induction k as [k IH|k IH|]; intros q; simpl.
  - by rewrite !IH.
  - by rewrite !IH.
  - reflexivity.
Qed.

Lemma binary_round_aux_scaled s (mx q : positive) ex n :
  digits2_pos q = 24%positive -> 0 <= n -> Zpos mx = Zpos q * 2 ^ n ->
  -149 <= ex + n <= 104 ->
  binary_round_aux F32.prec F32.emax s (Zpos mx) ex loc_Exact
  = S754_finite s q (ex + n).
Proof.
  intros Hq Hn Hmx He.
  pose proof (digits2_pos_scaled mx q n Hn Hmx) as Hd. rewrite Hq in Hd.
  unfold binary_round_aux, shr_fexp, fexp, emin, Zdigits2, F32.prec, F32.emax.
  rewrite Hd.
  replace (Z.max (24 + n + ex - 24) (3 - 128 - 24) - ex) with n by lia.
  destruct (scaled_mantissa mx q n Hn Hmx) as [[-> ->]|(k & -> & ->)]; simpl.
  - rewrite Hq.
    replace (Z.max (24 + ex - 24) (3 - 128 - 24) - ex) with 0 by lia.
    simpl. rewrite Z.add_0_r.
    destruct (Z.leb_spec ex (128 - 24)); [done|lia].
  - rewrite shr_exact. simpl. rewrite Hq.
    replace (Z.max (24 + (ex + Zpos k) - 24) (3 - 128 - 24) - (ex + Zpos k))
      with 0 by lia.
    simpl. destruct (Z.leb_spec (ex + Zpos k) (128 - 24)); [done|lia].
Qed.

Lemma canon_mantissa c :
  Zpos c < 2 ^ 24 ->
  let q := Z.to_pos (Zpos c * 2 ^ (24 - Zpos (digits2_pos c))) in
  Zpos q = Zpos c * 2 ^ (24 - Zpos (digits2_pos c))
  /\ digits2_pos q = 24%positive.
Proof.
  intros Hc q. pose proof (digits2_pos_bound c Hc) as Hd.
  assert (Hq : Zpos q = Zpos c * 2 ^ (24 - Zpos (digits2_pos c))).
  { unfold q. rewrite Z2Pos.id; [done|].
    apply Z.mul_pos_pos; [lia|]. apply Z.pow_pos_nonneg; lia. }
  split; [done|]. apply Pos2Z.inj.
  rewrite (digits2_pos_scaled q c (24 - Zpos (digits2_pos c))); [lia|lia|done].
Qed.

Lemma binary_round_scaled s (mx c : positive) j :
  Zpos c < 2 ^ 24 -> 0 <= j -> Zpos mx = Zpos c * 2 ^ j ->
  binary_round F32.prec F32.emax s mx (- j) = canon s c.
Proof.
  intros Hc Hj Hmx. pose proof (digits2_pos_bound c Hc) as Hd.
  destruct (canon_mantissa c Hc) as [Hq Hq24].
  pose proof (digits2_pos_scaled mx c j Hj Hmx) as Hdx.
  assert (Hd1 : 1 <= Zpos (digits2_pos c)) by lia.
  unfold canon.
  remember (Z.to_pos (Zpos c * 2 ^ (24 - Zpos (digits2_pos c)))) as q eqn:Eq.
  clear Eq. remember (Zpos (digits2_pos c)) as d eqn:Ed. clear Ed.
  unfold binary_round, shl_align, fexp, emin, F32.prec, F32.emax.
  rewrite Hdx.
  replace (Z.max (d + j + - j - 24) (3 - 128 - 24)) with (d - 24) by lia.
  destruct (d - 24 - - j) as [|k|k] eqn:Hk.
  - replace (d - 24) with (- j + (d - 24 + j)) by lia.
    apply binary_round_aux_scaled; [done|lia| |lia].
    rewrite Hmx, Hq. replace (d - 24 + j) with 0 by lia.
    replace (24 - d) with j by lia. lia.
  - replace (d - 24) with (- j + (d - 24 + j)) by lia.
    apply binary_round_aux_scaled; [done|lia| |lia].
    rewrite Hmx, Hq, <- Z.mul_assoc, <- Z.pow_add_r by lia.
    f_equal. f_equal. lia.
  - replace (d - 24) with (d - 24 + 0) at 2 by lia.
    apply binary_round_aux_scaled; [done|lia| |lia].
    rewrite Zpos_iter_xO, Hmx, Hq, Z.mul_1_r, <- Z.mul_assoc, <- Z.pow_add_r by lia.
    f_equal. f_equal. lia.
Qed.

Lemma of_Z_pos c : Zpos c < 2 ^ 24 -> F32.of_Z (Zpos c) = canon false c.
Proof.
  intros Hc. unfold F32.of_Z, binary_normalize.
  apply (binary_round_scaled false c c 0); [done|lia|lia].
Qed.

Lemma of_Z_neg c : Zpos c < 2 ^ 24 -> F32.of_Z (Zneg c) = canon true c.
Proof.
  intros Hc. unfold F32.of_Z, binary_normalize.
  apply (binary_round_scaled true c c 0); [done|lia|lia].
Qed.

(** Rounding an integer multiple of a power of two whose quotient is
    below 2^24 is exact. *)
Lemma binary_normalize_scaled n j :
  - 2 ^ 24 < n < 2 ^ 24 -> 0 <= j ->
  binary_normalize F32.prec F32.emax (n * 2 ^ j) (- j) false = F32.of_Z n.
Proof.
  intros Hn Hj.
  assert (Hpow : 0 < 2 ^ j) by (apply Z.pow_pos_nonneg; lia).
  destruct n as [|c|c].
  - reflexivity.
  - rewrite of_Z_pos by lia.
    destruct (Zpos c * 2 ^ j) as [|mx|mx] eqn:Hmx; [lia| |lia].
    simpl. apply binary_round_scaled; [lia|done|lia].
  - rewrite of_Z_neg by lia.
    destruct (Zneg c * 2 ^ j) as [|mx|mx] eqn:Hmx; [lia|lia|].
    simpl. apply binary_round_scaled; [lia|done|lia].
Qed.

Lemma shl_align_value mx ex ez :
  ez <= ex -> Zpos (fst (shl_align mx ex ez)) = Zpos mx * 2 ^ (ex - ez).
Proof.
  intros He. unfold shl_align.
  destruct (ez - ex) as [|k|k] eqn:Hk; simpl.
  - replace (ex - ez) with 0 by lia. lia.
  - lia.
  - rewrite Zpos_iter_xO. f_equal. f_equal. lia.
Qed.

Lemma cond_Zopp_mul s x k : cond_Zopp s (x * k) = cond_Zopp s x * k.
Proof. destruct s; simpl; lia. Qed.

(** A non-zero integer below 2^24 is a finite number whose signed mantissa
    is the integer, scaled. *)
Lemma of_Z_finite a :
  a <> 0 -> - 2 ^ 24 < a < 2 ^ 24 ->
  exists q e, F32.of_Z a = S754_finite (a <? 0) q e /\ -23 <= e <= 0 /\
    digits2_pos q = 24%positive /\
    cond_Zopp (a <? 0) (Zpos q) = a * 2 ^ (- e).
Proof.
  intros Ha Hr. destruct a as [|c|c]; [done| |].
  - rewrite of_Z_pos by lia. unfold canon.
    destruct (canon_mantissa c) as [Hq Hq24]; [lia|].
    assert (Hd : Zpos (digits2_pos c) <= 24) by (apply digits2_pos_bound; lia).
    eexists _, _. split; [reflexivity|]. split; [lia|]. split; [done|].
    simpl Z.ltb. cbn [cond_Zopp]. rewrite Hq.
    replace (24 - Zpos (digits2_pos c)) with (- (Zpos (digits2_pos c) - 24)) by lia.
    done.
  - rewrite of_Z_neg by lia. unfold canon.
    destruct (canon_mantissa c) as [Hq Hq24]; [lia|].
    assert (Hd : Zpos (digits2_pos c) <= 24) by (apply digits2_pos_bound; lia).
    eexists _, _. split; [reflexivity|]. split; [lia|]. split; [done|].
    simpl Z.ltb. cbn [cond_Zopp]. rewrite Hq.
    replace (24 - Zpos (digits2_pos c)) with (- (Zpos (digits2_pos c) - 24)) by lia.
    change (Zneg c <? 0) with true. unfold cond_Zopp.
    rewrite <- Pos2Z.opp_pos. ring.
Qed.

Lemma of_Z_0 : F32.of_Z 0 = S754_zero false.
Proof. reflexivity. Qed.

Lemma aligned_sum a b qa ea qb eb sa sb :
  -23 <= ea <= 0 -> -23 <= eb <= 0 ->
  cond_Zopp sa (Zpos qa) = a * 2 ^ (- ea) ->
  cond_Zopp sb (Zpos qb) = b * 2 ^ (- eb) ->
  cond_Zopp sa (Zpos (fst (shl_align qa ea (Z.min ea eb))))
  = a * 2 ^ (- Z.min ea eb)
  /\ cond_Zopp sb (Zpos (fst (shl_align qb eb (Z.min ea eb))))
     = b * 2 ^ (- Z.min ea eb).
Proof.
  intros Hea Heb Ha Hb.
  rewrite !shl_align_value, !cond_Zopp_mul, Ha, Hb by lia.
  rewrite <- !Z.mul_assoc, <- !Z.pow_add_r by lia.
  split; f_equal; f_equal; lia.
Qed.

Lemma F32_add_exact a b :
  - 2 ^ 24 < a < 2 ^ 24 -> - 2 ^ 24 < b < 2 ^ 24 ->
  - 2 ^ 24 < a + b < 2 ^ 24 ->
  F32.add (F32.of_Z a) (F32.of_Z b) = F32.of_Z (a + b).
Proof.
  intros Ha Hb Hab.
  destruct (Z.eq_dec a 0) as [->|Ha0].
  - rewrite of_Z_0, Z.add_0_l. destruct (Z.eq_dec b 0) as [->|Hb0]; [done|].
    by destruct (of_Z_finite b Hb0 Hb) as (qb & eb & -> & _).
  - destruct (of_Z_finite a Ha0 Ha) as (qa & ea & Hfa & Hea & _ & Hqa).
    destruct (Z.eq_dec b 0) as [->|Hb0].
    + by rewrite of_Z_0, Z.add_0_r, Hfa.
    + destruct (of_Z_finite b Hb0 Hb) as (qb & eb & Hfb & Heb & _ & Hqb).
      rewrite Hfa, Hfb. unfold F32.add, SFadd.
      destruct (aligned_sum a b qa ea qb eb _ _ Hea Heb Hqa Hqb) as [-> ->].
      rewrite <- Z.mul_add_distr_r.
      replace (Z.min ea eb) with (- - Z.min ea eb) at 2 by lia.
      apply binary_normalize_scaled; lia.
Qed.

Lemma of_Z_opp b :
  b <> 0 -> - 2 ^ 24 < b < 2 ^ 24 -> F32.of_Z (- b) = SFopp (F32.of_Z b).
Proof.
  intros Hb0 Hb. destruct b as [|c|c]; [done| |].
  - change (- Zpos c) with (Zneg c). by rewrite of_Z_pos, of_Z_neg by lia.
  - change (- Zneg c) with (Zpos c). by rewrite of_Z_pos, of_Z_neg by lia.
Qed.

Lemma F32_sub_exact a b :
  - 2 ^ 24 < a < 2 ^ 24 -> - 2 ^ 24 < b < 2 ^ 24 ->
  - 2 ^ 24 < a - b < 2 ^ 24 ->
  F32.sub (F32.of_Z a) (F32.of_Z b) = F32.of_Z (a - b).
Proof.
  intros Ha Hb Hab.
  destruct (Z.eq_dec a 0) as [->|Ha0].
  - rewrite of_Z_0, Z.sub_0_l. destruct (Z.eq_dec b 0) as [->|Hb0]; [done|].
    rewrite of_Z_opp by done.
    by destruct (of_Z_finite b Hb0 Hb) as (qb & eb & -> & _).
  - destruct (of_Z_finite a Ha0 Ha) as (qa & ea & Hfa & Hea & _ & Hqa).
    destruct (Z.eq_dec b 0) as [->|Hb0].
    + by rewrite of_Z_0, Z.sub_0_r, Hfa.
    + destruct (of_Z_finite b Hb0 Hb) as (qb & eb & Hfb & Heb & _ & Hqb).
      rewrite Hfa, Hfb. unfold F32.sub, SFsub.
      destruct (aligned_sum a b qa ea qb eb _ _ Hea Heb Hqa Hqb) as [-> ->].
      rewrite <- Z.mul_sub_distr_r.
      replace (Z.min ea eb) with (- - Z.min ea eb) at 2 by lia.
      apply binary_normalize_scaled; lia.
Qed.

Lemma digits2_pos_mono p q :
  (p <= q)%positive -> Zpos (digits2_pos p) <= Zpos (digits2_pos q).
Proof.
  intros Hpq. rewrite !digits2_pos_size.
  pose proof (Pos.size_le p) as Hp. pose proof (Pos.size_gt q) as Hq.
  apply Pos2Z.pos_le_pos in Hp. apply Pos2Z.pos_lt_pos in Hq.
  rewrite Pos2Z.inj_pow in Hp, Hq.
  destruct (Z.le_gt_cases (Zpos (Pos.size p)) (Zpos (Pos.size q))) as [|Hgt];
    [done|exfalso].
  assert (2 ^ (Zpos (Pos.size q) + 1) <= 2 ^ Zpos (Pos.size p))
    by (apply Z.pow_le_mono_r; lia).
  rewrite Z.pow_add_r in H by lia. change (2 ^ 1) with 2 in H.
  apply Pos2Z.pos_le_pos in Hpq.
  rewrite (Pos2Z.inj_xO p) in Hp. lia.
Qed.

Lemma F32_mul_exact a b :
  a <> 0 -> b <> 0 ->
  - 2 ^ 24 < a < 2 ^ 24 -> - 2 ^ 24 < b < 2 ^ 24 ->
  - 2 ^ 24 < a * b < 2 ^ 24 ->
  F32.mul (F32.of_Z a) (F32.of_Z b) = F32.of_Z (a * b).
Proof.
  intros Ha0 Hb0 Ha Hb Hab.
  destruct (of_Z_finite a Ha0 Ha) as (qa & ea & Hfa & Hea & Hda & Hqa).
  destruct (of_Z_finite b Hb0 Hb) as (qb & eb & Hfb & Heb & Hdb & Hqb).
  assert (Hab0 : a * b <> 0) by lia.
  destruct (of_Z_finite (a * b) Hab0 Hab) as (q & e & Hf & He & Hd & Hq).
  rewrite Hfa, Hfb, Hf. unfold F32.mul, SFmul.
  assert (Hsign : xorb (a <? 0) (b <? 0) = (a * b <? 0)).
  { destruct (Z.ltb_spec a 0), (Z.ltb_spec b 0), (Z.ltb_spec (a * b) 0);
      simpl; try done; nia. }
  rewrite Hsign.
  assert (Hpa : 0 < 2 ^ (- ea)) by (apply Z.pow_pos_nonneg; lia).
  assert (Hpb : 0 < 2 ^ (- eb)) by (apply Z.pow_pos_nonneg; lia).
  assert (Hpe : 0 < 2 ^ (- e)) by (apply Z.pow_pos_nonneg; lia).
  (* the product of the mantissas is the mantissa of the product, scaled *)
  assert (Hprod : Zpos (qa * qb) * 2 ^ (- e) = Zpos q * 2 ^ (- ea + - eb)).
  { rewrite Pos2Z.inj_mul, Z.pow_add_r by lia.
    destruct (a <? 0), (b <? 0), (a * b <? 0); simpl in Hqa, Hqb, Hq, Hsign;
      try discriminate Hsign; nia. }
  assert (Hdig : 24 <= Zpos (digits2_pos (qa * qb))).
  { change 24 with (Zpos 24). rewrite <- Hda.
    apply digits2_pos_mono. nia. }
  set (M := Zpos q * 2 ^ (- ea + - eb)) in *.
  assert (HM : 0 < M) by (unfold M; apply Z.mul_pos_pos; [lia|];
                          apply Z.pow_pos_nonneg; lia).
  assert (H1 : Zpos (digits2_pos (Z.to_pos M))
               = Zpos (digits2_pos (qa * qb)) + - e).
  { apply digits2_pos_scaled; [lia|]. rewrite Z2Pos.id by lia. by rewrite Hprod. }
  assert (H2 : Zpos (digits2_pos (Z.to_pos M))
               = Zpos (digits2_pos q) + (- ea + - eb)).
  { apply digits2_pos_scaled; [lia|]. by rewrite Z2Pos.id by lia. }
  rewrite Hd in H2.
  transitivity (S754_finite (a * b <? 0) q (ea + eb + (e - ea - eb)));
    [|f_equal; lia].
  apply binary_round_aux_scaled; [done|lia| |lia].
  apply (Z.mul_reg_r _ _ (2 ^ (- e))); [lia|].
  rewrite Hprod. unfold M. rewrite <- Z.mul_assoc, <- Z.pow_add_r by lia.
  f_equal. f_equal. lia.
Qed.

Lemma mantissa_bounds q :
  digits2_pos q = 24%positive -> 2 ^ 23 <= Zpos q < 2 ^ 24.
Proof.
  intros Hq. rewrite digits2_pos_size in Hq.
  pose proof (Pos.size_le q) as Hle. pose proof (Pos.size_gt q) as Hgt.
  rewrite Hq in Hle, Hgt.
  apply Pos2Z.pos_le_pos in Hle. apply Pos2Z.pos_lt_pos in Hgt.
  rewrite (Pos2Z.inj_xO q) in Hle.
  change (Zpos (2 ^ 24)) with 16777216 in Hle, Hgt.
  change (2 ^ 23) with 8388608. change (2 ^ 24) with 16777216. lia.
Qed.

Lemma compare_mantissas qa ea qb eb ca cb :
  digits2_pos qa = 24%positive -> digits2_pos qb = 24%positive ->
  ea <= 0 -> eb <= 0 ->
  Zpos qa = ca * 2 ^ (- ea) -> Zpos qb = cb * 2 ^ (- eb) ->
  match ea ?= eb with
  | Lt => Lt
  | Gt => Gt
  | Eq => Pos.compare_cont Eq qa qb
  end = (ca ?= cb).
Proof.
  intros Hda Hdb Hea Heb Hqa Hqb.
  pose proof (mantissa_bounds qa Hda) as Ba.
  pose proof (mantissa_bounds qb Hdb) as Bb.
  change (2 ^ 23) with 8388608 in Ba, Bb. change (2 ^ 24) with 16777216 in Ba, Bb.
  destruct (Z.compare_spec ea eb) as [->|Hlt|Hgt].
  - fold (Pos.compare qa qb). rewrite Pos2Z.inj_compare, Hqa, Hqb.
    assert (HP : 0 < 2 ^ (- eb)) by (apply Z.pow_pos_nonneg; lia).
    destruct (Z.compare_spec (ca * 2 ^ (- eb)) (cb * 2 ^ (- eb))),
      (Z.compare_spec ca cb); try done; nia.
  - symmetry. apply Z.compare_lt_iff.
    assert (Hsplit : 2 ^ (- ea) = 2 ^ (- eb) * 2 ^ (eb - ea))
      by (rewrite <- Z.pow_add_r by lia; f_equal; lia).
    assert (HQ : 2 <= 2 ^ (eb - ea))
      by (change 2 with (2 ^ 1) at 1; apply Z.pow_le_mono_r; lia).
    assert (HP : 0 < 2 ^ (- eb)) by (apply Z.pow_pos_nonneg; lia).
    rewrite Hsplit in Hqa. nia.
  - symmetry. apply Z.compare_gt_iff.
    assert (Hsplit : 2 ^ (- eb) = 2 ^ (- ea) * 2 ^ (ea - eb))
      by (rewrite <- Z.pow_add_r by lia; f_equal; lia).
    assert (HQ : 2 <= 2 ^ (ea - eb))
      by (change 2 with (2 ^ 1) at 1; apply Z.pow_le_mono_r; lia).
    assert (HP : 0 < 2 ^ (- ea)) by (apply Z.pow_pos_nonneg; lia).
    rewrite Hsplit in Hqb. nia.
Qed.

Lemma SFcompare_of_Z a b :
  - 2 ^ 24 < a < 2 ^ 24 -> - 2 ^ 24 < b < 2 ^ 24 ->
  SFcompare (F32.of_Z a) (F32.of_Z b) = Some (a ?= b).
Proof.
  intros Ha Hb.
  destruct (Z.eq_dec a 0) as [->|Ha0]; [rewrite of_Z_0|];
    (destruct (Z.eq_dec b 0) as [->|Hb0]; [rewrite of_Z_0|]).
  - done.
  - destruct (of_Z_finite b Hb0 Hb) as (qb & eb & -> & _). unfold SFcompare.
    destruct (Z.ltb_spec b 0), (Z.compare_spec 0 b); try done; lia.
  - destruct (of_Z_finite a Ha0 Ha) as (qa & ea & -> & _). unfold SFcompare.
    destruct (Z.ltb_spec a 0), (Z.compare_spec a 0); try done; lia.
  - destruct (of_Z_finite a Ha0 Ha) as (qa & ea & -> & Hea & Hda & Hqa).
    destruct (of_Z_finite b Hb0 Hb) as (qb & eb & -> & Heb & Hdb & Hqb).
    unfold SFcompare. f_equal.
    destruct (Z.ltb_spec a 0), (Z.ltb_spec b 0); simpl in Hqa, Hqb.
    + assert (Hqa' : Zpos qa = (- a) * 2 ^ (- ea)) by lia.
      assert (Hqb' : Zpos qb = (- b) * 2 ^ (- eb)) by lia.
      pose proof (compare_mantissas qa ea qb eb _ _ Hda Hdb
                    ltac:(lia) ltac:(lia) Hqa' Hqb') as Hcmp.
      rewrite Z.compare_opp, (Z.compare_antisym a b) in Hcmp.
      rewrite <- (CompOpp_involutive (a ?= b)), <- Hcmp.
      by destruct (ea ?= eb).
    + symmetry. apply Z.compare_lt_iff. lia.
    + symmetry. apply Z.compare_gt_iff. lia.
    + exact (compare_mantissas qa ea qb eb a b Hda Hdb
               ltac:(lia) ltac:(lia) Hqa Hqb).
Qed.


Lemma truncate_of_Z n : - 2 ^ 24 < n < 2 ^ 24 -> truncate (F32.of_Z n) = Some n.
Proof.
  intros Hn. destruct (Z.eq_dec n 0) as [->|Hn0]; [done|].
  destruct (of_Z_finite n Hn0 Hn) as (q & e & -> & He & _ & Hq).
  unfold truncate. f_equal.
  assert (Hpow : 0 < 2 ^ (- e)) by (apply Z.pow_pos_nonneg; lia).
  destruct (Z.leb_spec 0 e).
  - assert (e = 0) as -> by lia. rewrite Z.shiftl_0_r.
    change (2 ^ (- 0)) with 1 in Hq. lia.
  - rewrite Z.shiftr_div_pow2 by lia.
    destruct (n <? 0); simpl in Hq |- *.
    + replace (Zpos q) with ((- n) * 2 ^ (- e)) by lia.
      rewrite Z.div_mul by lia. lia.
    + rewrite Hq. apply Z.div_mul. lia.
Qed.

Lemma F32_eqb_of_Z a b :
  - 2 ^ 24 < a < 2 ^ 24 -> - 2 ^ 24 < b < 2 ^ 24 ->
  F32.eqb (F32.of_Z a) (F32.of_Z b) = (a =? b)
  /\ F32.ltb (F32.of_Z a) (F32.of_Z b) = (a <? b)
  /\ F32.leb (F32.of_Z a) (F32.of_Z b) = (a <=? b).
Proof.
  intros Ha Hb. unfold F32.eqb, F32.ltb, F32.leb, SFeqb, SFltb, SFleb.
  rewrite (SFcompare_of_Z a b Ha Hb).
  unfold Z.ltb, Z.leb. repeat split; try by destruct (a ?= b).
  destruct (Z.compare_spec a b), (Z.eqb_spec a b); try done; lia.
Qed.

(** X16. Canonicalization is lossless below 2^24: an integer parameter of
    a supported kind whose magnitude is below 2^24 (every [uint8], [int8],
    [uint16] and [int16]) becomes a [float32] whose integer part is that
    integer, so that two such integers become equal numbers only when they
    are equal. *)
Theorem canonicalization_exact k m n :
  supported k = true ->
  - 2 ^ 24 < m < 2 ^ 24 -> - 2 ^ 24 < n < 2 ^ 24 ->
  exists x y,
    castToFloat32 (VInt k m) = VFloat32 x /\ castToFloat32 (VInt k n) = VFloat32 y
    /\ truncate x = Some m /\ truncate y = Some n
    /\ (F32.eqb x y = true <-> m = n).
Proof.
  intros Hk Hm Hn. exists (F32.of_Z m), (F32.of_Z n).
  split; [by destruct k|]. split; [by destruct k|].
  split; [by apply truncate_of_Z|]. split; [by apply truncate_of_Z|].
  destruct (F32_eqb_of_Z m n Hm Hn) as [-> _]. apply Z.eqb_eq.
Qed.

(** Beyond 2^24 the conversion rounds: 2^24 + 1 becomes 2^24. *)
Example canonicalization_rounds_above :
  castToFloat32 (VInt Int32 16777217) = castToFloat32 (VInt Int32 16777216).
Proof. reflexivity. Qed.

(** X17. Integer arithmetic is exact: on the numbers of two integers below
    2^24 in magnitude, [+], [-] and [*] return the number of the integer
    sum, difference and product, as long as that result is below 2^24 in
    magnitude (for [*], on operands other than 0, whose product may be the
    negative zero). *)
Theorem integer_arithmetic_exact (fmt_v : value -> string) a b P :
  - 2 ^ 24 < a < 2 ^ 24 -> - 2 ^ 24 < b < 2 ^ 24 ->
  (- 2 ^ 24 < a + b < 2 ^ 24 ->
   addStage fmt_v (VFloat32 (F32.of_Z a)) (VFloat32 (F32.of_Z b)) P
   = Ok (VFloat32 (F32.of_Z (a + b))))
  /\ (- 2 ^ 24 < a - b < 2 ^ 24 ->
      subtractStage (VFloat32 (F32.of_Z a)) (VFloat32 (F32.of_Z b)) P
      = Ok (VFloat32 (F32.of_Z (a - b))))
  /\ (a <> 0 -> b <> 0 -> - 2 ^ 24 < a * b < 2 ^ 24 ->
      multiplyStage (VFloat32 (F32.of_Z a)) (VFloat32 (F32.of_Z b)) P
      = Ok (VFloat32 (F32.of_Z (a * b)))).
Proof.
  intros Ha Hb. split; [|split].
  - intros Hab. rewrite addStage_numeric by done.
    unfold arithmeticStage. rewrite numericStage_scalar_scalar.
    by rewrite F32_add_exact.
  - intros Hab. unfold subtractStage, arithmeticStage.
    rewrite numericStage_scalar_scalar. by rewrite F32_sub_exact.
  - intros Ha0 Hb0 Hab. unfold multiplyStage, arithmeticStage.
    rewrite numericStage_scalar_scalar. by rewrite F32_mul_exact.
Qed.

(** X18. Comparisons of integers: on the numbers of two integers below 2^24
    in magnitude, the six comparison kernels return the comparison of the
    integers. *)
Theorem integer_comparisons_exact a b P :
  - 2 ^ 24 < a < 2 ^ 24 -> - 2 ^ 24 < b < 2 ^ 24 ->
  let x := VFloat32 (F32.of_Z a) in
  let y := VFloat32 (F32.of_Z b) in
  equalStage x y P = Ok (VBool (a =? b))
  /\ notEqualStage x y P = Ok (VBool (negb (a =? b)))
  /\ ltStage x y P = Ok (VBool (a <? b))
  /\ lteStage x y P = Ok (VBool (a <=? b))
  /\ gtStage x y P = Ok (VBool (b <? a))
  /\ gteStage x y P = Ok (VBool (b <=? a)).
Proof.
  intros Ha Hb x y.
  destruct (F32_eqb_of_Z a b Ha Hb) as (Heq & Hlt & Hle).
  destruct (F32_eqb_of_Z b a Hb Ha) as (_ & Hlt' & Hle').
  unfold x, y, equalStage, notEqualStage, ltStage, lteStage, gtStage, gteStage,
    comparisonStage.
  cbn [isString andb].
  rewrite !numericStage_scalar_scalar.
  by rewrite Heq, Hlt, Hle, Hlt', Hle'.
Qed.

Section Bitwise.
Variable int64_unrepresentable : float32 -> Z.
Variable uint64_unrepresentable : float32 -> Z.

Lemma int64_of_Z n :
  - 2 ^ 24 < n < 2 ^ 24 -> int64 int64_unrepresentable (F32.of_Z n) = n.
Proof.
  intros Hn. unfold int64. rewrite truncate_of_Z by done.
  destruct (Z.leb_spec (- 2 ^ 63) n), (Z.ltb_spec n (2 ^ 63)); simpl; lia.
Qed.

Lemma uint64_of_Z n :
  0 <= n < 2 ^ 24 -> uint64 uint64_unrepresentable (F32.of_Z n) = n.
Proof.
  intros Hn. unfold uint64. rewrite truncate_of_Z by lia.
  destruct (Z.leb_spec 0 n), (Z.ltb_spec n (2 ^ 64)); simpl; lia.
Qed.

(** X19. Bitwise kernels on integers: on the numbers of two integers below
    2^24 in magnitude, [&], [|], [^] and the prefix [~] return the number
    of the bitwise operation on the integers in two's complement, and on
    two such integers that are not negative [<<] and [>>] return the number
    of the shifted integer, [<<] modulo 2^64 and both 0 from a count of 64
    on; none of these results depends on the implementation. *)
Theorem bitwise_kernels_on_integers a b x P :
  - 2 ^ 24 < a < 2 ^ 24 -> - 2 ^ 24 < b < 2 ^ 24 ->
  let u := VFloat32 (F32.of_Z a) in
  let v := VFloat32 (F32.of_Z b) in
  bitwiseAndStage int64_unrepresentable u v P
  = Ok (VFloat32 (F32.of_Z (Z.land a b)))
  /\ bitwiseOrStage int64_unrepresentable u v P
     = Ok (VFloat32 (F32.of_Z (Z.lor a b)))
  /\ bitwiseXORStage int64_unrepresentable u v P
     = Ok (VFloat32 (F32.of_Z (Z.lxor a b)))
  /\ bitwiseNotStage int64_unrepresentable x u P
     = Ok (VFloat32 (F32.of_Z (- a - 1)))
  /\ (0 <= a -> 0 <= b ->
      leftShiftStage uint64_unrepresentable u v P
      = Ok (VFloat32 (F32.of_Z (if 64 <=? b then 0 else (a * 2 ^ b) mod 2 ^ 64)))
      /\ rightShiftStage uint64_unrepresentable u v P
         = Ok (VFloat32 (F32.of_Z (if 64 <=? b then 0 else a / 2 ^ b)))).
Proof.
  intros Ha Hb u v. unfold u, v.
  unfold bitwiseAndStage, bitwiseOrStage, bitwiseXORStage, leftShiftStage,
    rightShiftStage, arithmeticStage.
  rewrite !numericStage_scalar_scalar.
  rewrite !int64_of_Z by done.
  split; [done|]. split; [done|]. split; [done|]. split.
  - unfold bitwiseNotStage. cbn [assertFloat32s assertFloat32].
    rewrite int64_of_Z by done.
    by replace (Z.lnot a) with (- a - 1) by (unfold Z.lnot; lia).
  - intros Ha0 Hb0. rewrite !uint64_of_Z by lia.
    unfold shl64, shr64. destruct (64 <=? b) eqn:H64; [done|].
    apply Z.leb_gt in H64.
    by rewrite Z.shiftl_mul_pow2, Z.shiftr_div_pow2 by lia.
Qed.
End Bitwise.
End SmallIntegers.

(** ** More on stages, parameters and the ternary kernels *)

Lemma assignNonStage_back s t :
  assignNonStage (assignNonStage s t) (assignNonStage t s) = s.
Proof. by destruct s, t. Qed.

(** X20. Swapping twice restores the store: after [a.swapWith(b)] on two
    stages of the store, a second [a.swapWith(b)] returns the store as it
    was. *)
Theorem swapWith_involutive (h : store) a b sa sb :
  h !! a = Some sa -> h !! b = Some sb ->
  exists h', swapWith a b h = Some h' /\ swapWith a b h' = Some h.
Proof.
  intros Ha Hb. unfold swapWith, setToNonStage. rewrite Ha, Hb. simpl.
  destruct (decide (a = b)) as [->|Hab].
  - assert (sa = sb) as -> by congruence.
    rewrite lookup_insert_eq. simpl. eexists. split; [reflexivity|].
    rewrite !lookup_insert_eq. simpl. rewrite !lookup_insert_eq. simpl.
    f_equal. apply map_eq. intros i. rewrite !lookup_insert.
    case_decide; [|done]. subst. rewrite Hb. f_equal. by destruct sb.
  - rewrite lookup_insert_ne, Ha by done. simpl.
    eexists. split; [reflexivity|].
    rewrite (lookup_insert_ne _ a b), lookup_insert_eq by done. simpl.
    rewrite lookup_insert_eq. simpl.
    rewrite (lookup_insert_ne _ b a), lookup_insert_eq by done. simpl.
    f_equal. rewrite !assignNonStage_back.
    apply map_eq. intros i. rewrite !lookup_insert.
    repeat case_decide; subst; congruence.
Qed.

(** X21. [a.swapWith(b)] and [b.swapWith(a)] leave the same store, and
    panic on the same stores. *)
Theorem swapWith_symmetric (h : store) a b : swapWith a b h = swapWith b a h.
Proof.
  unfold swapWith, setToNonStage.
  destruct (h !! a) as [sa|] eqn:Ha, (h !! b) as [sb|] eqn:Hb; simpl;
    rewrite ?Ha, ?Hb; simpl; try done.
  destruct (decide (a = b)) as [->|Hab].
  - by assert (sa = sb) as -> by congruence.
  - rewrite !lookup_insert_ne, Ha, Hb by done. simpl.
    f_equal. by apply insert_insert_ne.
Qed.

(** X22. A parameter read through the sanitizing wrapper is canonical: the
    parameter stage returns either an error of the wrapped source, with nil
    for the value, or a value that [castToFloat32] leaves alone, which is
    neither an integer of a supported kind nor a [float64], nor a slice of
    them. *)
Theorem parameter_stage_canonical p name left right :
  match makeParameterStage name left right (sanitizedParameters_Get p) with
  | Return v None =>
      castToFloat32 v = v
      /\ (forall k n ns, supported k = true -> v <> VInt k n /\ v <> VInts k ns)
      /\ (forall x, v <> VFloat64 x) /\ (forall xs, v <> VFloat64s xs)
  | Return v (Some e) => v = VNil /\ exists w, orig p name = (w, Some e)
  | Panic => False
  end.
Proof.
  unfold makeParameterStage, sanitizedParameters_Get.
  destruct (orig p name) as [w [e|]]; [eauto|].
  split; [apply castToFloat32_fixed|].
  split; [|split].
  - intros k n ns Hk. split; intros H; destruct w as [| | | | | | |[]|[]| | | |];
      simpl in H; try discriminate H; by destruct k.
  - intros x H. destruct w as [| | | | | | |[]|[]| | | |]; discriminate H.
  - intros x H. destruct w as [| | | | | | |[]|[]| | | |]; discriminate H.
Qed.

(** X23. A left operand that is not a number is taken for 0 by
    [ternaryElseStage]: whatever it is (nil, a string, a boolean, a list),
    with a number or a vector of numbers on the right, the kernel returns
    the right operand when the sentinel equals 0 and its operand error for
    every other sentinel. *)
Theorem ternaryElseStage_non_number_left P noData left right :
  getNoData P = (noData, None) ->
  isFloat32 left = false -> isFloat32 right = true ->
  ternaryElseStage left right P
  = if F32.eqb F32.zero noData then Ok right
    else Fail (InvalidOperand "ternary else").
Proof.
  intros Hnd Hl Hr. unfold ternaryElseStage. rewrite Hnd.
  assert (Hlax : assertFloat32s left = ([], false)) by (by destruct left).
  assert (Hlx : assertFloat32 left = (F32.zero, false)) by (by destruct left).
  rewrite Hlax, Hlx.
  destruct right as [|rx|rax| | | | | | | | | |]; try discriminate Hr; simpl.
  - by destruct (F32.eqb F32.zero noData).
  - destruct (F32.eqb F32.zero noData) eqn:Hz; simpl; [|done].
    rewrite (forRange_assign _ (fun i => elem F32.zero rax i));
      [ | done | apply length_make ].
    do 2 f_equal. etrans; [exact (tabulate_elem F32.zero id rax)|].
    apply list_fmap_id.
Qed.

(** X24. Values pass through the ternary kernels: with the condition
    [true], [ternaryIfStage] returns its right operand, and
    [ternaryElseStage] returns its left operand when none of its lanes
    equals the sentinel and the right operand does not force a vector shape
    on a scalar. *)
Theorem ternary_kernels_pass_through P noData l r :
  getNoData P = (noData, None) ->
  isFloat32 l = true -> isFloat32 r = true -> compatible l r = true ->
  ternaryIfStage (VBool true) r P = Ok r
  /\ ((forall i x, numberLane l i = Some x -> F32.eqb x noData = false) ->
      joinLength l r = vectorLength l ->
      ternaryElseStage l r P = Ok l).
Proof.
  intros Hnd Hl Hr Hc. split.
  - destruct r as [|rx|rax| | | | | | | | | |]; try discriminate Hr.
    + by rewrite (ternaryIfStage_scalar_scalar P noData Hnd).
    + rewrite (ternaryIfStage_scalar_vector P noData Hnd).
      do 2 f_equal. apply list_fmap_id.
  - intros Hlanes Hshape.
    destruct l as [|lx|lax| | | | | | | | | |]; try discriminate Hl;
      destruct r as [|rx|rax| | | | | | | | | |]; try discriminate Hr;
      try discriminate Hshape.
    + rewrite (ternaryElseStage_scalar_scalar P noData Hnd). unfold fill.
      by rewrite (Hlanes 0 lx eq_refl).
    + rewrite (ternaryElseStage_vector_scalar P noData Hnd).
      do 2 f_equal. rewrite <- (list_fmap_id lax) at 2.
      apply list_fmap_ext. intros i x Hx. unfold fill.
      by rewrite (Hlanes i x Hx).
    + apply compatible_vectors in Hc.
      rewrite (ternaryElseStage_vector_vector P noData Hnd) by done.
      do 2 f_equal. apply list_eq. intros i.
      rewrite lookup_zip_with.
      destruct (lax !! i) as [x|] eqn:Hx; simpl; [|done].
      destruct (lookup_lt_is_Some_2 rax i) as [y Hy];
        [apply lookup_lt_Some in Hx; lia|].
      rewrite Hy. simpl. unfold fill. by rewrite (Hlanes i x Hx).
Qed.


(** * Instances of the further properties *)

Lemma numeric_kernel_result_shape_witness :
  exists v,
    divideStage (VFloat32 F32.one) (VFloat32s (numbers [1; 2; 4]%Z)) noParameters
    = Ok v
    /\ vectorLength v = Some 3 /\ isFloat32 v || isBool v = true.
Proof.
  apply (numeric_kernel_result_shape Stub.math_Pow Stub.math_Mod
           Stub.int64_unrepresentable Stub.uint64_unrepresentable Stub.fmt_v
           divideStage (VFloat32 F32.one) (VFloat32s (numbers [1; 2; 4]%Z))
           noParameters); [simpl; auto 10|reflexivity..].
Defined.

Lemma numeric_kernel_elementwise_witness :
  let u := numbers [1; 2]%Z in
  let w := numbers [10; 20]%Z in
  exists res,
    ltStage (VFloat32s u) (VFloat32s w) noParameters = Ok res /\
    vectorLength res = Some 2 /\
    forall i x y, u !! i = Some x -> w !! i = Some y ->
      exists z, lane res i = Some z /\
                ltStage (VFloat32 x) (VFloat32 y) noParameters = Ok z.
Proof.
  apply (numeric_kernel_elementwise Stub.math_Pow Stub.math_Mod
           Stub.int64_unrepresentable Stub.uint64_unrepresentable Stub.fmt_v
           ltStage (numbers [1; 2]%Z) (numbers [10; 20]%Z) noParameters);
    [simpl; auto 20|reflexivity].
Defined.

Lemma combined_type_checks_exact_witness :
  additionTypeCheck (VBool true) (VFloat32 F32.one) = false
  /\ addStage Stub.fmt_v (VBool true) (VFloat32 F32.one) noParameters
     = Fail (InvalidOperand "addition")
  /\ comparatorTypeCheck (VString "a") (VFloat32 F32.one) = false
  /\ ltStage (VString "a") (VFloat32 F32.one) noParameters
     = Fail (InvalidOperand "<").
Proof.
  destruct (combined_type_checks_exact Stub.fmt_v (VBool true)
              (VFloat32 F32.one) noParameters) as [Hadd _].
  destruct (combined_type_checks_exact Stub.fmt_v (VString "a")
              (VFloat32 F32.one) noParameters) as [_ Hcmp].
  split; [reflexivity|]. split; [by apply Hadd|]. split; [reflexivity|].
  apply (Hcmp ltStage "<"); [simpl; auto|reflexivity].
Defined.

Lemma operand_error_exact_witness :
  multiplyStage VNil (VFloat32 F32.one) noParameters
  = Fail (InvalidOperand "multiplication")
  /\ orStage (VBool true) (VFloat32 F32.one) noParameters
     = Fail (InvalidOperand "||").
Proof.
  split.
  - apply (proj1 (operand_error_exact Stub.math_Pow Stub.math_Mod
                    Stub.int64_unrepresentable Stub.uint64_unrepresentable
                    multiplyStage "multiplication" VNil (VFloat32 F32.one)
                    noParameters)); [simpl; auto|reflexivity].
  - apply (proj2 (operand_error_exact Stub.math_Pow Stub.math_Mod
                    Stub.int64_unrepresentable Stub.uint64_unrepresentable
                    orStage "||" (VBool true) (VFloat32 F32.one)
                    noParameters)); [simpl; auto|reflexivity].
Defined.


Lemma notEqual_inverts_equal_witness :
  let l := VFloat32s (numbers [1; 2; 3]%Z) in
  let r := VFloat32 (F32.of_Z 2) in
  equalStage l r noParameters = Ok (VBools [false; true; false])
  /\ invertStage VNil (VBools [false; true; false]) noParameters
     = notEqualStage l r noParameters.
Proof.
  intros l r. split; [reflexivity|].
  exact (notEqual_inverts_equal l r VNil noParameters eq_refl eq_refl).
Defined.

Lemma comparators_swap_witness :
  gtStage (VString "b") (VString "a") noParameters
  = ltStage (VString "a") (VString "b") noParameters
  /\ gteStage (VFloat32s (numbers [1; 5]%Z)) (VFloat32 (F32.of_Z 3)) noParameters
     = lteStage (VFloat32 (F32.of_Z 3)) (VFloat32s (numbers [1; 5]%Z)) noParameters.
Proof.
  split.
  - apply (comparators_swap (VString "b") (VString "a")); reflexivity.
  - apply (comparators_swap (VFloat32s (numbers [1; 5]%Z))
             (VFloat32 (F32.of_Z 3))); reflexivity.
Defined.


Lemma prefix_kernels_involutive_witness :
  (exists w, negateStage VNil (VFloat32s (numbers [1; -2]%Z)) noParameters = Ok w
             /\ negateStage VNil w noParameters
                = Ok (VFloat32s (numbers [1; -2]%Z)))
  /\ (exists w, invertStage VNil (VBool true) noParameters = Ok w
                /\ invertStage VNil w noParameters = Ok (VBool true)).
Proof.
  split.
  - exact (proj1 (prefix_kernels_involutive (VFloat32s (numbers [1; -2]%Z))
                    VNil VNil noParameters) eq_refl).
  - exact (proj2 (prefix_kernels_involutive (VBool true) VNil VNil noParameters)
             eq_refl).
Defined.

Lemma logical_kernels_de_morgan_witness :
  let l := VBools [true; false] in
  let r := VBool true in
  exists nl nr,
    invertStage VNil l noParameters = Ok nl /\
    invertStage VNil r noParameters = Ok nr /\
    (exists v, andStage l r noParameters = Ok v /\
               invertStage VNil v noParameters = orStage nl nr noParameters) /\
    (exists v, orStage l r noParameters = Ok v /\
               invertStage VNil v noParameters = andStage nl nr noParameters).
Proof.
  intros l r.
  apply (logical_kernels_de_morgan l r VNil noParameters); reflexivity.
Defined.

Lemma logical_kernels_neutral_witness :
  andStage (VBool true) (VBools [true; false]) noParameters
  = Ok (VBools [true; false])
  /\ andStage (VBool false) (VBools [true; false]) noParameters
     = Ok (VBools [false; false]).
Proof.
  destruct (logical_kernels_neutral (VBools [true; false]) [true; false]
              noParameters) as (Hneutral & Hfalse & _).
  split; [apply (Hneutral eq_refl)|apply Hfalse].
Defined.

Lemma commutative_kernels_witness :
  let l := VFloat32s (numbers [1; 2]%Z) in
  let r := VFloat32 (F32.of_Z 3) in
  addStage Stub.fmt_v l r noParameters = addStage Stub.fmt_v r l noParameters
  /\ multiplyStage l r noParameters = multiplyStage r l noParameters.
Proof.
  intros l r.
  destruct (proj1 (commutative_kernels Stub.fmt_v l r noParameters eq_refl)
              eq_refl eq_refl) as (Hadd & Hmul & _).
  by split.
Defined.

Lemma separator_builds_list_witness :
  separate (VFloat32 F32.one) [VString "a"; VBool true]
  = Ok (VList [VFloat32 F32.one; VString "a"; VBool true])
  /\ separate (VList [VNil; VNil]) [VString "a"]
     = Ok (VList [VNil; VNil; VString "a"]).
Proof.
  split.
  - exact (proj1 (separator_builds_list (VFloat32 F32.one) (VString "a")
                    [VBool true]) eq_refl).
  - exact (proj2 (separator_builds_list (VList [VNil; VNil]) (VString "a") [])
             [VNil; VNil] eq_refl).
Defined.

Lemma function_call_arguments_witness :
  let echo : ExpressionFunction := fun args => Ok (VList args) in
  (exists args,
     separate (VFloat32 F32.one) [VString "a"; VBool true] = Ok args /\
     makeFunctionStage echo VNil args noParameters
     = echo [VFloat32 F32.one; VString "a"; VBool true])
  /\ makeFunctionStage echo VNil (VString "a") noParameters = echo [VString "a"].
Proof.
  intros echo.
  destruct (function_call_arguments echo VNil noParameters)
    as (Hmany & Hone & _).
  split; [by apply Hmany|by apply Hone].
Defined.

(** [5 in (1, 3, 5, 7)] holds, [4 in (1, 3, 5, 7)] does not, and a NaN is
    not in a list that holds a NaN. *)
Lemma inStage_membership_witness :
  inStage sameHandle (VFloat32 (F32.of_Z 5))
    (VList (VFloat32 <$> numbers [1; 3; 5; 7]%Z)) noParameters
  = Ok (VBool true)
  /\ inStage sameHandle (VFloat32 (F32.of_Z 4))
       (VList (VFloat32 <$> numbers [1; 3; 5; 7]%Z)) noParameters
     = Ok (VBool false)
  /\ inStage sameHandle (VFloat32 S754_nan) (VList [VFloat32 S754_nan])
       noParameters
     = Ok (VBool false)
  /\ inStage sameHandle (VFloat32 F32.one) (VFloat32 F32.one) noParameters
     = Panic.
Proof.
  split; [|split; [|split]].
  - exact (proj1 (proj2 (inStage_membership sameHandle (VFloat32 (F32.of_Z 5))
                           (VFloat32 <$> numbers [1; 3; 5; 7]%Z) noParameters))
             (F32.of_Z 5) eq_refl).
  - exact (proj1 (proj2 (inStage_membership sameHandle (VFloat32 (F32.of_Z 4))
                           (VFloat32 <$> numbers [1; 3; 5; 7]%Z) noParameters))
             (F32.of_Z 4) eq_refl).
  - exact (proj1 (proj2 (inStage_membership sameHandle (VFloat32 S754_nan)
                           [VFloat32 S754_nan] noParameters))
             S754_nan eq_refl).
  - exact (proj2 (proj2 (proj2 (inStage_membership sameHandle (VFloat32 F32.one)
                                  [] noParameters)))
             (VFloat32 F32.one) eq_refl).
Defined.

Lemma canonicalization_exact_witness :
  exists x y,
    castToFloat32 (VInt Uint16 65535) = VFloat32 x
    /\ castToFloat32 (VInt Uint16 (-3)) = VFloat32 y
    /\ truncate x = Some 65535%Z /\ truncate y = Some (-3)%Z
    /\ (F32.eqb x y = true <-> 65535%Z = (-3)%Z).
Proof.
  apply (canonicalization_exact Uint16 65535 (-3));
    [reflexivity|split; reflexivity|split; reflexivity].
Defined.

(** [2 + 3 * 4] is 14. *)
Lemma integer_arithmetic_exact_witness :
  multiplyStage (VFloat32 (F32.of_Z 3)) (VFloat32 (F32.of_Z 4)) noParameters
  = Ok (VFloat32 (F32.of_Z 12))
  /\ addStage Stub.fmt_v (VFloat32 (F32.of_Z 2)) (VFloat32 (F32.of_Z 12))
       noParameters
     = Ok (VFloat32 (F32.of_Z 14)).
Proof.
  split.
  - apply (proj2 (proj2 (integer_arithmetic_exact Stub.fmt_v 3 4 noParameters
                           ltac:(split; reflexivity) ltac:(split; reflexivity))));
      [discriminate|discriminate|split; reflexivity].
  - apply (proj1 (integer_arithmetic_exact Stub.fmt_v 2 12 noParameters
                    ltac:(split; reflexivity) ltac:(split; reflexivity)));
      split; reflexivity.
Defined.

Lemma integer_comparisons_exact_witness :
  equalStage (VFloat32 (F32.of_Z 7)) (VFloat32 (F32.of_Z (-7))) noParameters
  = Ok (VBool false)
  /\ ltStage (VFloat32 (F32.of_Z (-7))) (VFloat32 (F32.of_Z 7)) noParameters
     = Ok (VBool true).
Proof.
  split.
  - apply (integer_comparisons_exact 7 (-7) noParameters); split; reflexivity.
  - apply (integer_comparisons_exact (-7) 7 noParameters); split; reflexivity.
Defined.

Lemma bitwise_kernels_on_integers_witness :
  bitwiseAndStage Stub.int64_unrepresentable
    (VFloat32 (F32.of_Z 12)) (VFloat32 (F32.of_Z 10)) noParameters
  = Ok (VFloat32 (F32.of_Z 8))
  /\ bitwiseNotStage Stub.int64_unrepresentable VNil
       (VFloat32 (F32.of_Z 12)) noParameters
     = Ok (VFloat32 (F32.of_Z (-13))).
Proof.
  destruct (bitwise_kernels_on_integers Stub.int64_unrepresentable
              Stub.uint64_unrepresentable 12 10 VNil noParameters
              ltac:(split; reflexivity) ltac:(split; reflexivity))
    as (Hand & _ & _ & Hnot & _).
  split; [exact Hand|exact Hnot].
Defined.

Lemma swapWith_involutive_witness :
  let h : store := {[ 1%positive := plusStage; 2%positive := andStageNode ]} in
  exists h', swapWith 1%positive 2%positive h = Some h'
             /\ swapWith 1%positive 2%positive h' = Some h.
Proof.
  intros h.
  apply (swapWith_involutive h 1%positive 2%positive plusStage andStageNode);
    reflexivity.
Defined.

Lemma parameter_stage_canonical_witness :
  let p := {| orig := mapParameters {[ "x" := VInt Int32 7 ]} |} in
  makeParameterStage "x" VNil VNil (sanitizedParameters_Get p)
  = Ok (VFloat32 (F32.of_Z 7))
  /\ castToFloat32 (VFloat32 (F32.of_Z 7)) = VFloat32 (F32.of_Z 7).
Proof.
  intros p. split; [reflexivity|].
  pose proof (parameter_stage_canonical p "x" VNil VNil) as H.
  change (makeParameterStage "x" VNil VNil (sanitizedParameters_Get p))
    with (Ok (VFloat32 (F32.of_Z 7))) in H.
  exact (proj1 H).
Defined.

Lemma ternaryElseStage_non_number_left_witness :
  ternaryElseStage (VString "abc") (VFloat32 F32.one)
    (withNoData (VFloat32 F32.zero))
  = Ok (VFloat32 F32.one)
  /\ ternaryElseStage (VBool true) (VFloat32 F32.one) noParameters
     = Fail (InvalidOperand "ternary else").
Proof.
  split.
  - exact (ternaryElseStage_non_number_left (withNoData (VFloat32 F32.zero))
             F32.zero (VString "abc") (VFloat32 F32.one)
             eq_refl eq_refl eq_refl).
  - exact (ternaryElseStage_non_number_left noParameters
             F32.SmallestNonzeroFloat32 (VBool true) (VFloat32 F32.one)
             eq_refl eq_refl eq_refl).
Defined.

Lemma ternary_kernels_pass_through_witness :
  ternaryIfStage (VBool true) (VFloat32s (numbers [1; 2]%Z)) noParameters
  = Ok (VFloat32s (numbers [1; 2]%Z)).
Proof.
  exact (proj1 (ternary_kernels_pass_through noParameters
                  F32.SmallestNonzeroFloat32 (VFloat32 F32.one)
                  (VFloat32s (numbers [1; 2]%Z)) eq_refl eq_refl eq_refl
                  eq_refl)).
Defined.


(** ** Patterns *)

Section Patterns.
Variable regexp_Compile : string -> Regexp + string.
Variable regexp_Match : Regexp -> string -> bool.

Local Abbreviation regex := (regexStage regexp_Compile regexp_Match).

(** X26. Outcomes of [regexStage]: a pattern given as a string is compiled
    before the left operand is looked at, so that a pattern that does not
    compile is reported as an error whatever the left operand; a string
    that compiles gives the outcome of the compiled pattern; and without
    the type checks of the stage the kernel panics: on a left operand that
    is not a string, and on a right operand that is neither a string nor a
    pattern. *)
Theorem regexStage_outcomes left right P :
  (forall p cause, right = VString p -> regexp_Compile p = inr cause ->
     regex left right P = Fail (RegexpCompile right cause))
  /\ (forall p re, right = VString p -> regexp_Compile p = inl re ->
        regex left right P = regex left (VRegexp (Some re)) P)
  /\ (forall s re, left = VString s ->
        regex left (VRegexp (Some re)) P = Ok (VBool (regexp_Match re s)))
  /\ (forall re, isString left = false ->
        regex left (VRegexp re) P = Panic)
  /\ (isRegexOrString right = false -> regex left right P = Panic).
Proof.
  split; [|split; [|split; [|split]]].
  - intros p cause -> Hc. unfold regexStage. by rewrite Hc.
  - intros p re -> Hc. unfold regexStage. by rewrite Hc.
  - by intros s re ->.
  - intros re Hl. unfold regexStage, patternMatch. by destruct left.
  - intros Hr. unfold regexStage, patternMatch.
    destruct right; try discriminate Hr; by destruct left.
Qed.
End Patterns.

Lemma regexStage_outcomes_witness :
  regexStage Stub.regexp_Compile Stub.regexp_Match (VString "foobar")
    (VString "oba") noParameters
  = regexStage Stub.regexp_Compile Stub.regexp_Match (VString "foobar")
      (VRegexp (Some {| expr := "oba" |})) noParameters
  /\ regexStage Stub.regexp_Compile Stub.regexp_Match (VFloat32 F32.one)
       (VRegexp (Some {| expr := "oba" |})) noParameters
     = Panic.
Proof.
  split.
  - exact (proj1 (proj2 (regexStage_outcomes Stub.regexp_Compile
                           Stub.regexp_Match (VString "foobar") (VString "oba")
                           noParameters))
             "oba" {| expr := "oba" |} eq_refl eq_refl).
  - exact (proj1 (proj2 (proj2 (proj2
             (regexStage_outcomes Stub.regexp_Compile Stub.regexp_Match
                (VFloat32 F32.one) VNil noParameters))))
             (Some {| expr := "oba" |}) eq_refl).
Defined.
